(** * Aura fleet orchestrator: a shallow embedding and its properties

    The development follows the JavaScript sources of the repository:
    - [src/util/Queue.mjs]            (module [Queue]),
    - [src/util/Serialization.mjs] and [src/util/CentralRequestHandler.mjs]
                                      (module [Serialization]),
    - [src/sharding/Admiral.mjs]      (modules [Sharding] and [Admiral]).

    JavaScript numbers that hold identifiers, counters and sizes are
    integers ([Z] or [nat]); a JavaScript [Map] whose iteration order is
    observed is an insertion-ordered association list ([JsMap]), a [Map]
    that is only read by key is a [gmap]. *)

From stdpp Require Import prelude strings gmap.
From Stdlib Require Import ZArith Lia DecimalString DecimalPos DecimalZ.

Set Warnings "-register-all".

(* ===================================================================== *)
(** * Part I: definitions *)
(* ===================================================================== *)

(** ** Shard partitioning and concurrency groups (Admiral.mjs) *)

Module Sharding.
Local Open Scope Z_scope.

Section chunk.
Context {A : Type}.

(** [Array.prototype.slice(start, end)]: negative indices count from
    the end, both indices are clamped to the length. *)
Definition slice (l : list A) (s e : Z) : list A :=
  let len := Z.of_nat (length l) in
  let k := if s <? 0 then Z.max (len + s) 0 else Z.min s len in
  let f := if e <? 0 then Z.max (len + e) 0 else Z.min e len in
  take (Z.to_nat (f - k)) (drop (Z.to_nat k) l).

(** [Math.ceil(a / c)] on integers, for a divisor [c > 0]. *)
Definition ceil_div (a c : Z) : Z := - ((- a) / c).

(** First loop of [chunk] (lines 1898-1900):
    [while (i < length) r.push(shards.slice(i, (i += size)))].
    [None] when the fuel is used up before the loop exits. *)
Fixpoint chunk_even (fuel : nat) (shards : list A) (len size i : Z)
    (r : list (list A)) : option (list (list A)) :=
  if i <? len then
    match fuel with
    | O => None
    | S fuel' =>
        chunk_even fuel' shards len size (i + size)
          (r ++ [slice shards i (i + size)])
    end
  else Some r.

(** Second loop of [chunk] (lines 1903-1906):
    [size = Math.ceil((length - i) / clusters--)].  The quotient is
    computed on integers; a divisor [clusters <= 0] (where JavaScript
    would produce [Infinity] or a negative size) is outside the
    model and yields [None]. *)
Fixpoint chunk_uneven (fuel : nat) (shards : list A) (len clusters i : Z)
    (r : list (list A)) : option (list (list A)) :=
  if i <? len then
    match fuel with
    | O => None
    | S fuel' =>
        if clusters <=? 0 then None
        else
          let size := ceil_div (len - i) clusters in
          chunk_uneven fuel' shards len (clusters - 1) (i + size)
            (r ++ [slice shards i (i + size)])
    end
  else Some r.

(** [chunk(shards, clusters)] (lines 1889-1909) with explicit fuel. *)
Definition chunk_fuel (fuel : nat) (shards : list A) (clusters : Z)
    : option (list (list A)) :=
  if clusters <? 2 then Some [shards]
  else
    let len := Z.of_nat (length shards) in
    if Z.rem len clusters =? 0 then
      chunk_even fuel shards len (len / clusters) 0 []
    else
      chunk_uneven fuel shards len clusters 0 [].

(** Every iteration takes at least one shard, so [length shards]
    iterations are enough (see [chunk_fuel_spec]). *)
Definition chunk (shards : list A) (clusters : Z) : option (list (list A)) :=
  chunk_fuel (length shards) shards clusters.

(** Sizes of the groups, as integers. *)
Definition sizes (r : list (list A)) : list Z :=
  (fun g => Z.of_nat (length g)) <$> r.
End chunk.

(** Earlier groups are never smaller than later ones, and any two
    groups differ in size by at most one. *)
Definition balanced (szs : list Z) : Prop :=
  forall (i j : nat) (a b : Z),
    (i <= j)%nat -> szs !! i = Some a -> szs !! j = Some b ->
    b <= a <= b + 1.

(** Each size is at most its predecessor, the first one at most [hi]. *)
Fixpoint desc_from (hi : Z) (szs : list Z) : Prop :=
  match szs with
  | [] => True
  | a :: rest => a <= hi /\ desc_from a rest
  end.

(** [chunkConcurrencyGroups()] (lines 1878-1888): the loop state is the
    pair of [currentGroup] and the map built so far; the map is kept as
    the list of its [set] calls, which insert strictly increasing keys. *)
Definition groups_step (maxConcurrency : Z) (st : Z * list (Z * Z)) (i : nat)
    : Z * list (Z * Z) :=
  let '(currentGroup, m) := st in
  let currentGroup' :=
    if Z.of_nat i - currentGroup * maxConcurrency =? maxConcurrency
    then currentGroup + 1 else currentGroup in
  (currentGroup', m ++ [(Z.of_nat i, currentGroup')]).

Definition chunkConcurrencyGroups (clusterCount : nat) (maxConcurrency : Z)
    : list (Z * Z) :=
  snd (foldl (groups_step maxConcurrency) (0, []) (seq 0 clusterCount)).

(** [clusterToGroupMap.get(clusterID)]. *)
Fixpoint group_get (m : list (Z * Z)) (clusterID : Z) : option Z :=
  match m with
  | [] => None
  | (k, g) :: m' => if k =? clusterID then Some g else group_get m' clusterID
  end.

(** The group-start test of the queue listener (line 619):
    [(currentClusterID & this.maxConcurrency) === 0], on IDs and limits
    in the range of 32-bit integers. *)
Definition group_start_bitwise (clusterID maxConcurrency : Z) : bool :=
  Z.land clusterID maxConcurrency =? 0.

(** The spec's words, for comparison: [groupOf(clusterID) = clusterID div
    maxConcurrency], and a cluster starts a group when
    [clusterID mod maxConcurrency = 0]. *)
Definition groupOf_spec (clusterID maxConcurrency : Z) : Z :=
  clusterID / maxConcurrency.

Definition group_start_spec (clusterID maxConcurrency : Z) : bool :=
  clusterID mod maxConcurrency =? 0.

(** First member of its group according to the map of
    [chunkConcurrencyGroups]: cluster 0, or a cluster whose predecessor
    is in another group. *)
Definition group_first_member (m : list (Z * Z)) (clusterID : Z) : bool :=
  match group_get m clusterID with
  | None => false
  | Some g =>
      if clusterID =? 0 then true
      else match group_get m (clusterID - 1) with
           | Some g' => negb (g' =? g)
           | None => true
           end
  end.
End Sharding.

(** ** The lifecycle queue (util/Queue.mjs) *)

Module Queue.

(** An override tag is [undefined] or a string. *)
Definition tag := option string.

(** JavaScript truthiness of a tag: [undefined] and the empty string are
    falsy. *)
Definition truthy (o : tag) : bool :=
  match o with
  | Some s => negb (String.eqb s "")
  | None => false
  end.

Section queue.
(** Queue items are objects, hence truthy whenever present. *)
Context {Item : Type}.

Record t := mk { queue : list Item; override : tag }.

(** An emitted ["execute"] signal carries [(item, prevItem)]. *)
Definition signal : Type := Item * option Item.

(** The gate shared by the three methods:
    [this.override && override !== this.override]. *)
Definition gated (q : t) (o : tag) : bool :=
  truthy (override q) && negb (bool_decide (o = override q)).

(** [execute(first, override)] (lines 12-22). *)
Definition execute (first : bool) (o : tag) (q : t) : t * list signal :=
  if gated q o then (q, [])
  else
    let prevItem := if first then None else head (queue q) in
    let queue' := if first then queue q else tail (queue q) in
    match queue' with
    | [] => (mk queue' (override q), [])
    | item :: _ => (mk queue' (override q), [(item, prevItem)])
    end.

(** [item(item, override)] (lines 23-29). *)
Definition item (i : Item) (o : tag) (q : t) : t * list signal :=
  if gated q o then (q, [])
  else
    let q' := mk (queue q ++ [i]) (override q) in
    if (length (queue q') =? 1)%nat then execute true o q' else (q', []).

(** [bulkItems(items, override)] (lines 30-37). *)
Definition bulkItems (items : list Item) (o : tag) (q : t) : t * list signal :=
  if gated q o then (q, [])
  else
    let exec := (length (queue q) =? 0)%nat in
    let q' := mk (queue q ++ items) (override q) in
    if exec then execute true o q' else (q', []).

(** The same queue with the override cleared, and a result put back under
    a given override: used to say that a call passes the gate untouched. *)
Definition ungated (q : t) : t := mk (queue q) None.

Definition with_override (o : tag) (r : t * list signal) : t * list signal :=
  (mk (queue r.1) o, r.2).
End queue.

Arguments t : clear implicits.
End Queue.

(** ** Message serialization (util/Serialization.mjs) and the central
       request proxy (Admiral.centralApiRequest, CentralRequestHandler) *)

Module Serialization.

(** An [Error] instance: [message] and [stack] are own, non-enumerable
    properties, [name] is inherited; [e_props] are the own enumerable
    properties ([code], [errno], [path], [syscall], ...). *)
Inductive value :=
| VUndefined
| VNull
| VBool (b : bool)
| VNum (n : Z)
| VBigInt (z : Z)
| VStr (s : string)
| VArr (elems : list (option value))
| VObj (props : list (string * value))
| VErr (name message stack : value) (props : list (string * value)).

(** JavaScript numbers are kept as exact integers; an array element
    [None] is an empty slot; the property lists are in the object's own
    key order. *)

(** JSON text, represented by its syntax tree.  [JSON.stringify] of plain
    data followed by [JSON.parse] is the identity on such trees. *)
Inductive json :=
| JNull
| JBool (b : bool)
| JNum (n : Z)
| JStr (s : string)
| JArr (elems : list json)
| JObj (members : list (string * json)).

(** [`${value}`] for a bigint: decimal digits with a leading minus sign
    for negative numbers. *)
Definition bigint_to_string (z : Z) : string :=
  NilZero.string_of_int (Z.to_int z).

(** [BigInt(s)] on decimal literals with an optional minus sign and on the
    empty string; [None] stands for the [SyntaxError] of any other string
    (the white space, plus sign and radix prefixes that JavaScript also
    accepts are left out). *)
Definition BigInt (s : string) : option Z :=
  if String.eqb s "" then Some 0%Z
  else Z.of_int <$> NilZero.int_of_string s.

(** [s.substring(n)]. *)
Fixpoint substring_from (n : nat) (s : string) : string :=
  match n, s with
  | O, _ => s
  | S n', String _ s' => substring_from n' s'
  | S _, EmptyString => EmptyString
  end.

(** [s.startsWith(t)]. *)
Fixpoint starts_with (t s : string) : bool :=
  match t with
  | EmptyString => true
  | String a t' =>
      match s with
      | EmptyString => false
      | String b s' => Ascii.eqb a b && starts_with t' s'
      end
  end.

Definition BIGINT_tag : string := "BIGINT::".
Definition UNDEFINED_tag : string := "UNDEFINED::".

(** The replacer of [stringifyJSON] (lines 23-35). *)
Definition replacer (v : value) : value :=
  match v with
  | VBigInt z => VStr (BIGINT_tag +:+ bigint_to_string z)
  | VUndefined => VStr UNDEFINED_tag
  | _ => v
  end.

(** [JSON.stringify(data, replacer)]: the replacer is applied to a value
    before its members are visited; an empty array slot reads as
    [undefined]; only own enumerable properties of an object are
    written.  After the replacer no bigint or [undefined] is left, so
    nothing is dropped and nothing throws. *)
Fixpoint stringify_value (v : value) : json :=
  match v with
  | VBigInt z => JStr (BIGINT_tag +:+ bigint_to_string z)
  | VUndefined => JStr UNDEFINED_tag
  | VNull => JNull
  | VBool b => JBool b
  | VNum n => JNum n
  | VStr s => JStr s
  | VArr elems =>
      JArr (map (fun o => match o with
                          | Some x => stringify_value x
                          | None => JStr UNDEFINED_tag
                          end) elems)
  | VObj props => JObj (map (fun kv => (kv.1, stringify_value kv.2)) props)
  | VErr _ _ _ props => JObj (map (fun kv => (kv.1, stringify_value kv.2)) props)
  end.

Definition stringifyJSON (data : value) : json := stringify_value data.

(** The reviver of [parseJSON] (lines 38-48) on a string; [None] when
    [BigInt] throws. *)
Definition reviver_string (s : string) : option value :=
  if starts_with BIGINT_tag s then VBigInt <$> BigInt (substring_from 8 s)
  else if starts_with UNDEFINED_tag s then Some VUndefined
  else Some (VStr s).

Definition is_undefined (v : value) : bool :=
  match v with VUndefined => true | _ => false end.

(** [JSON.parse(json, reviver)]: members are revived before their holder;
    a member revived to [undefined] is deleted from its holder (an object
    loses the property, an array keeps an empty slot). *)
Fixpoint parse_value (j : json) : option value :=
  match j with
  | JNull => Some VNull
  | JBool b => Some (VBool b)
  | JNum n => Some (VNum n)
  | JStr s => reviver_string s
  | JArr elems =>
      (fun vs => VArr (map (fun v => if is_undefined v then None else Some v) vs))
        <$> mapM parse_value elems
  | JObj members =>
      (fun kvs => VObj (List.filter (fun kv => negb (is_undefined kv.2)) kvs))
        <$> mapM (fun kv => pair kv.1 <$> parse_value kv.2) members
  end.

Definition parseJSON (j : json) : option value := parse_value j.

(** Property read [v[k]] and element read [v[i]] on objects and arrays
    ([undefined] when missing). *)
Fixpoint assoc (k : string) (props : list (string * value)) : option value :=
  match props with
  | [] => None
  | (k', v) :: rest => if String.eqb k' k then Some v else assoc k rest
  end.

Definition get_prop (v : value) (k : string) : value :=
  match v with
  | VObj props => default VUndefined (assoc k props)
  | VErr name message stack props =>
      if String.eqb k "message" then message
      else if String.eqb k "stack" then stack
      else if String.eqb k "name" then name
      else default VUndefined (assoc k props)
  | _ => VUndefined
  end.

Definition get_index (v : value) (i : nat) : value :=
  match v with
  | VArr elems => default VUndefined (mjoin (elems !! i))
  | _ => VUndefined
  end.

(** [v instanceof Error]. *)
Definition instanceof_Error (v : value) : bool :=
  match v with VErr _ _ _ _ => true | _ => false end.

(** [errorToJSON(error)] (lines 1-11). *)
Definition errorToJSON (error : value) : value :=
  VObj [("code", get_prop error "code");
        ("errno", get_prop error "errno");
        ("message", get_prop error "message");
        ("name", get_prop error "name");
        ("path", get_prop error "path");
        ("stack", get_prop error "stack");
        ("syscall", get_prop error "syscall")]%string.

(** [result[key] = value] on an [Error] instance. *)
Fixpoint assoc_set (k : string) (x : value) (props : list (string * value))
    : list (string * value) :=
  match props with
  | [] => [(k, x)]
  | (k', v) :: rest =>
      if String.eqb k' k then (k', x) :: rest else (k', v) :: assoc_set k x rest
  end.

Definition error_assign (e : value) (kv : string * value) : value :=
  match e with
  | VErr name message stack props =>
      if String.eqb kv.1 "message" then VErr name kv.2 stack props
      else if String.eqb kv.1 "stack" then VErr name message kv.2 props
      else if String.eqb kv.1 "name" then VErr name message stack props
      else VErr name message stack (assoc_set kv.1 kv.2 props)
  | _ => e
  end.

(** [reconstructError(data)] (lines 12-21); [new_stack] is the stack
    trace captured by [new Error()]. *)
Definition reconstructError (new_stack : string) (data : value) : value :=
  match data with
  | VErr _ _ _ props =>
      foldl error_assign (VErr (VStr "Error") (VStr "") (VStr new_stack) []) props
  | _ => data
  end.

(** Outcome of [this.eris.requestHandler.request(...)]. *)
Inductive outcome :=
| Fulfilled (v : value)
| Rejected (error : value).

(** The [centralApiResponse] message body [{ resolved, valueSerialized }]. *)
Record response := { resolved : bool; valueSerialized : json }.

(** [Admiral.centralApiRequest] (lines 1342-1372): the reply sent for
    each outcome of the proxied call. *)
Definition centralApiRequest (o : outcome) : response :=
  match o with
  | Fulfilled v => {| resolved := true; valueSerialized := stringifyJSON v |}
  | Rejected error =>
      let msg :=
        if instanceof_Error error
        then VObj [("convertedErrorObject", VBool true);
                   ("error", errorToJSON error)]%string
        else VObj [("convertedErrorObject", VBool false);
                   ("error", error)]%string in
      {| resolved := false; valueSerialized := stringifyJSON msg |}
  end.

(** How the pending promise of [CentralRequestHandler.request] settles. *)
Inductive settled :=
| Resolve (v : value)
| Reject (v : value)
| Throws.

(** Truthiness of a value in a condition. *)
Definition value_truthy (v : value) : bool :=
  match v with
  | VUndefined | VNull => false
  | VBool b => b
  | VNum n => negb (n =? 0)%Z
  | VBigInt z => negb (z =? 0)%Z
  | VStr s => negb (String.eqb s "")
  | _ => true
  end.

(** The callback of [CentralRequestHandler.request] (lines 40-55), given
    [r.resolved] and the parsed [r.value]; reading a property of [null]
    or [undefined] throws. *)
Definition callback (new_stack : string) (r_resolved : bool) (r_value : value)
    : settled :=
  if r_resolved then Resolve r_value
  else
    match r_value with
    | VUndefined | VNull => Throws
    | value =>
        if value_truthy (get_prop value "convertedErrorObject")
        then Reject (reconstructError new_stack (get_prop value "error"))
        else Reject (get_prop value "error")
    end.

(** The worker's message listener (lines 11-19) applied to the reply:
    [message.value.value = parseJSON(message.value.valueSerialized)], then
    the pending request's callback. *)
Definition on_centralApiResponse (new_stack : string) (m : response)
    : option settled :=
  callback new_stack (resolved m) <$> parseJSON (valueSerialized m).

(** From the outcome of the proxied call on the orchestrator to the
    settlement of the worker's promise. *)
Definition proxied_call (new_stack : string) (o : outcome) : option settled :=
  on_centralApiResponse new_stack (centralApiRequest o).

(** The payloads of claim C10: JSON data (no [Error] instances), bigints
    and [undefined], with distinct keys in every object. *)
Fixpoint payload (v : value) : Prop :=
  match v with
  | VArr elems =>
      (fix go (l : list (option value)) : Prop :=
         match l with
         | [] => True
         | Some x :: l' => payload x /\ go l'
         | None :: l' => go l'
         end) elems
  | VObj props =>
      NoDup props.*1 /\
      (fix go (l : list (string * value)) : Prop :=
         match l with
         | [] => True
         | kv :: l' => payload kv.2 /\ go l'
         end) props
  | VErr _ _ _ _ => False
  | _ => True
  end.

(** No string of the payload begins with one of the two tags. *)
Definition untagged (s : string) : bool :=
  negb (starts_with BIGINT_tag s) && negb (starts_with UNDEFINED_tag s).

Fixpoint tag_free (v : value) : Prop :=
  match v with
  | VStr s => untagged s = true
  | VArr elems =>
      (fix go (l : list (option value)) : Prop :=
         match l with
         | [] => True
         | Some x :: l' => tag_free x /\ go l'
         | None :: l' => go l'
         end) elems
  | VObj props =>
      (fix go (l : list (string * value)) : Prop :=
         match l with
         | [] => True
         | kv :: l' => tag_free kv.2 /\ go l'
         end) props
  | VErr _ _ _ props => False
  | _ => True
  end.

(** What a payload looks like after the round trip: an [undefined] array
    element has become an empty slot and an [undefined] object property
    has been deleted; everything else is as before. *)
Fixpoint revived (v : value) : value :=
  match v with
  | VArr elems =>
      VArr (map (fun o => match o with
                          | Some x => if is_undefined x then None else Some (revived x)
                          | None => None
                          end) elems)
  | VObj props =>
      VObj ((fix go (l : list (string * value)) : list (string * value) :=
               match l with
               | [] => []
               | kv :: l' =>
                   if is_undefined kv.2 then go l'
                   else (kv.1, revived kv.2) :: go l'
               end) props)
  | _ => v
  end.
End Serialization.

(** ** JavaScript [Map] with its insertion order (util/Collection.mjs) *)

Module JsMap.
Section jsmap.
Context {K V : Type} `{EqDecision K}.

(** Entries in insertion order; the operations keep the keys distinct. *)
Definition t : Type := list (K * V).

(** [map.get(k)]. *)
Fixpoint get (k : K) (m : t) : option V :=
  match m with
  | [] => None
  | (k', v) :: m' => if decide (k' = k) then Some v else get k m'
  end.

(** [map.set(k, v)]: an existing key keeps its position. *)
Fixpoint set (k : K) (v : V) (m : t) : t :=
  match m with
  | [] => [(k, v)]
  | (k', v') :: m' =>
      if decide (k' = k) then (k', v) :: m' else (k', v') :: set k v m'
  end.

(** [map.delete(k)]. *)
Fixpoint delete (k : K) (m : t) : t :=
  match m with
  | [] => []
  | (k', v') :: m' =>
      if decide (k' = k) then delete k m' else (k', v') :: delete k m'
  end.

Definition values (m : t) : list V := m.*2.

(** [Collection.find(func)]: the first value, in insertion order, that
    satisfies [func]. *)
Definition find (func : V -> bool) (m : t) : option V :=
  List.find func (values m).

(** [map.size]. *)
Definition size (m : t) : nat := length m.
End jsmap.

Arguments t : clear implicits.
End JsMap.

(** ** The orchestrator (sharding/Admiral.mjs)

    The state holds the fields of the [Admiral] object that the lifecycle
    handlers read and write, the table [master.workers] of the [cluster]
    module, the timers that are pending, and the trace of the effects
    performed so far.  Closures stored in maps or handed to [setTimeout]
    are represented by the data they capture.

    The model covers [launch], [startService], [startCluster], the
    handlers of the worker messages [launched], [connected], [codeLoaded],
    [shutdown], the fetch operations and [return], the [exit] handler,
    the queue listener, the timers, and the methods [restartCluster],
    [restartService], [shutdownCluster] and [shutdownService].  Statistics,
    logging through [this.log], [reshard], [totalShutdown] and the
    restart-all methods are not part of it. *)

Module Admiral.
Local Open Scope Z_scope.

(** [worker.id], as handed out by [master.fork()]. *)
Definition workerID := nat.

(** [process.env.type] of a forked worker. *)
Inductive wkind := KCluster | KService.

(** An entry of [master.workers]; a worker stays in the table, marked as
    exited, once its [exit] event has been handled. *)
Record Worker := { w_type : wkind; w_exited : bool }.

(** The [id] of whoever asks: a worker, or the orchestrator's own IPC
    (["master"]). *)
Inductive requester := Master | FromWorker (w : workerID).

(** Shard bounds: [Math.min()] and [Math.max()] of an empty chunk are
    infinite. *)
Inductive num := Num (z : Z) | Infinity | NegInfinity.

Record ClusterRecord := {
  c_workerID : workerID;
  c_clusterID : Z;
  c_firstShardID : num;
  c_lastShardID : num
}.

Record ServiceRecord := {
  s_workerID : workerID;
  s_serviceName : string;
  s_path : string
}.

Inductive LaunchingEntry :=
| LCluster (cluster : ClusterRecord)
| LService (service : ServiceRecord).

(** Messages sent to workers; of a [connect] message only the identity
    and the shard range are kept. *)
Inductive message :=
| ConnectCluster (clusterID : Z) (clusterCount : nat) (firstShardID lastShardID : num)
    (resharding : bool)
| ConnectService (serviceName path : string)
| ShutdownMsg
| LoadCode
| FetchMsg (op id : string) (UUID : requester)
| Return (id : string) (value : option string).

Inductive itype := TCluster | TService | TNone.

Record QueueItem := {
  qi_type : itype;
  qi_workerID : workerID;
  qi_message : message
}.

(** [launchingManager] values: the string ["launched"], or the object
    [{ waiting }] whose closure captures the queue item. *)
Inductive launchRecord :=
| LaunchedFlag
| Waiting (item : QueueItem).

(** The [callback] argument of [shutdownWorker]. *)
Inductive callback :=
| NoCallback
| RestartClusterKilled (newWorker : workerID) (cluster : ClusterRecord)
| RestartServiceKilled (newWorker : workerID) (service : ServiceRecord).

(** The [fn] of a [softKills] entry: the soft-shutdown continuations of
    [shutdownWorker] (lines 1955-1973 and 1996-2012) and the soft-restart
    continuations of [restartWorker] (lines 2054-2069 and 2126-2139). *)
Inductive softKillFn :=
| ShutdownClusterFn (worker : workerID) (cluster : ClusterRecord)
    (customMaps : bool) (cb : callback)
| ShutdownServiceFn (worker : workerID) (service : ServiceRecord)
    (customMaps : bool) (cb : callback)
| RestartClusterFn (newWorker worker : workerID) (cluster : ClusterRecord)
| RestartServiceFn (newWorker worker : workerID) (service : ServiceRecord).

(** The [customMaps] argument of [shutdownWorker]. *)
Record CustomMaps := {
  cm_clusters : option (JsMap.t Z ClusterRecord);
  cm_services : option (JsMap.t string ServiceRecord);
  cm_launchingWorkers : option (JsMap.t workerID LaunchingEntry)
}.

Record FetchEntry := {
  f_UUID : requester;
  f_op : string;
  f_id : string;
  f_checked : nat
}.

(** Pending [setTimeout] callbacks. *)
Inductive timer :=
| QueueExecuteTimer
| KillTimer (item : QueueItem)
| FetchTimer (id : string) (requestWorker : requester).

Inductive admiral_event :=
| ClusterReady (clusterID : Z)
| ServiceReady (serviceName : string)
| ClusterShutdown (clusterID : Z)
| ServiceShutdown (serviceName : string)
| Ready.

Inductive warning :=
| DiedDuringSoftKill (w : workerID)
| MaxRestartsCluster (clusterID : Z)
| MaxRestartsService (serviceName : string)
| SafeShutdownFailed (w : workerID)
| ClusterDied (clusterID : Z)
| ServiceDied (serviceName : string).

Inductive error_log :=
| LaunchedWorkerUndefined
| InvalidClusterGroup.

(** What the orchestrator does to the outside, in order. *)
Inductive effect :=
| Sent (w : workerID) (m : message)
| IpcEmitted (id : string) (value : option string)
| Killed (w : workerID)
| Forked (w : workerID) (k : wkind)
| Emitted (e : admiral_event)
| Broadcast (e : admiral_event)
| StartingGroup (g : Z)
| Warned (x : warning)
| Errored (x : error_log)
| Thrown.

#[global] Instance requester_eq_dec : EqDecision requester.
Proof. solve_decision. Defined.
#[global] Instance wkind_eq_dec : EqDecision wkind.
Proof. solve_decision. Defined.
#[global] Instance itype_eq_dec : EqDecision itype.
Proof. solve_decision. Defined.
#[global] Instance effect_eq_dec : EqDecision effect.
Proof.
  assert (EqDecision num) by solve_decision.
  assert (EqDecision message) by solve_decision.
  assert (EqDecision admiral_event) by solve_decision.
  assert (EqDecision warning) by solve_decision.
  assert (EqDecision error_log) by solve_decision.
  solve_decision.
Defined.

(** Options fixed at construction. *)
Record config := {
  maxConcurrency : Z;
  maxRestarts : Z;
  startServicesTogether : bool;
  broadcastAdmiralEvents : bool;
  log_concurrency_group_starting : bool;
  firstShardID : Z;
  lastShardID : Z;
  options_clusters : Z;
  options_services : option (list (string * string))
}.

Record state := {
  clusters : JsMap.t Z ClusterRecord;
  services : JsMap.t string ServiceRecord;
  launchingWorkers : JsMap.t workerID LaunchingEntry;
  queue : Queue.t QueueItem;
  softKills : gmap workerID softKillFn;
  fetches : JsMap.t (string * requester) FetchEntry;
  launchingManager : gmap workerID launchRecord;
  connectedClusterGroups : gmap Z Z;
  clustersSequentialFailedRestarts : gmap Z Z;
  servicesSequentialFailedRestarts : gmap string Z;
  servicesToCreate : option (list (string * string));
  clusterCount : nat;
  chunks : option (list (list Z));
  resharding : bool;
  workers : gmap workerID Worker;
  next_worker : workerID;
  timers : list timer;
  trace : list effect
}.

(** Field updates. *)
Definition upd_clusters (x : JsMap.t Z ClusterRecord) (s : state) : state :=
  {| clusters := x; services := services s; launchingWorkers :=
     launchingWorkers s; queue := queue s; softKills := softKills s; fetches
     := fetches s; launchingManager := launchingManager s;
     connectedClusterGroups := connectedClusterGroups s;
     clustersSequentialFailedRestarts := clustersSequentialFailedRestarts s;
     servicesSequentialFailedRestarts := servicesSequentialFailedRestarts s;
     servicesToCreate := servicesToCreate s; clusterCount := clusterCount s;
     chunks := chunks s; resharding := resharding s; workers := workers s;
     next_worker := next_worker s; timers := timers s; trace := trace s |}.

Definition upd_services (x : JsMap.t string ServiceRecord) (s : state) : state :=
  {| clusters := clusters s; services := x; launchingWorkers :=
     launchingWorkers s; queue := queue s; softKills := softKills s; fetches
     := fetches s; launchingManager := launchingManager s;
     connectedClusterGroups := connectedClusterGroups s;
     clustersSequentialFailedRestarts := clustersSequentialFailedRestarts s;
     servicesSequentialFailedRestarts := servicesSequentialFailedRestarts s;
     servicesToCreate := servicesToCreate s; clusterCount := clusterCount s;
     chunks := chunks s; resharding := resharding s; workers := workers s;
     next_worker := next_worker s; timers := timers s; trace := trace s |}.

Definition upd_launchingWorkers (x : JsMap.t workerID LaunchingEntry) (s : state) : state :=
  {| clusters := clusters s; services := services s; launchingWorkers := x;
     queue := queue s; softKills := softKills s; fetches := fetches s;
     launchingManager := launchingManager s; connectedClusterGroups :=
     connectedClusterGroups s; clustersSequentialFailedRestarts :=
     clustersSequentialFailedRestarts s; servicesSequentialFailedRestarts :=
     servicesSequentialFailedRestarts s; servicesToCreate := servicesToCreate
     s; clusterCount := clusterCount s; chunks := chunks s; resharding :=
     resharding s; workers := workers s; next_worker := next_worker s; timers
     := timers s; trace := trace s |}.

Definition upd_queue (x : Queue.t QueueItem) (s : state) : state :=
  {| clusters := clusters s; services := services s; launchingWorkers :=
     launchingWorkers s; queue := x; softKills := softKills s; fetches :=
     fetches s; launchingManager := launchingManager s; connectedClusterGroups
     := connectedClusterGroups s; clustersSequentialFailedRestarts :=
     clustersSequentialFailedRestarts s; servicesSequentialFailedRestarts :=
     servicesSequentialFailedRestarts s; servicesToCreate := servicesToCreate
     s; clusterCount := clusterCount s; chunks := chunks s; resharding :=
     resharding s; workers := workers s; next_worker := next_worker s; timers
     := timers s; trace := trace s |}.

Definition upd_softKills (x : gmap workerID softKillFn) (s : state) : state :=
  {| clusters := clusters s; services := services s; launchingWorkers :=
     launchingWorkers s; queue := queue s; softKills := x; fetches := fetches
     s; launchingManager := launchingManager s; connectedClusterGroups :=
     connectedClusterGroups s; clustersSequentialFailedRestarts :=
     clustersSequentialFailedRestarts s; servicesSequentialFailedRestarts :=
     servicesSequentialFailedRestarts s; servicesToCreate := servicesToCreate
     s; clusterCount := clusterCount s; chunks := chunks s; resharding :=
     resharding s; workers := workers s; next_worker := next_worker s; timers
     := timers s; trace := trace s |}.

Definition upd_fetches (x : JsMap.t (string * requester) FetchEntry) (s : state) : state :=
  {| clusters := clusters s; services := services s; launchingWorkers :=
     launchingWorkers s; queue := queue s; softKills := softKills s; fetches
     := x; launchingManager := launchingManager s; connectedClusterGroups :=
     connectedClusterGroups s; clustersSequentialFailedRestarts :=
     clustersSequentialFailedRestarts s; servicesSequentialFailedRestarts :=
     servicesSequentialFailedRestarts s; servicesToCreate := servicesToCreate
     s; clusterCount := clusterCount s; chunks := chunks s; resharding :=
     resharding s; workers := workers s; next_worker := next_worker s; timers
     := timers s; trace := trace s |}.

Definition upd_launchingManager (x : gmap workerID launchRecord) (s : state) : state :=
  {| clusters := clusters s; services := services s; launchingWorkers :=
     launchingWorkers s; queue := queue s; softKills := softKills s; fetches
     := fetches s; launchingManager := x; connectedClusterGroups :=
     connectedClusterGroups s; clustersSequentialFailedRestarts :=
     clustersSequentialFailedRestarts s; servicesSequentialFailedRestarts :=
     servicesSequentialFailedRestarts s; servicesToCreate := servicesToCreate
     s; clusterCount := clusterCount s; chunks := chunks s; resharding :=
     resharding s; workers := workers s; next_worker := next_worker s; timers
     := timers s; trace := trace s |}.

Definition upd_connectedClusterGroups (x : gmap Z Z) (s : state) : state :=
  {| clusters := clusters s; services := services s; launchingWorkers :=
     launchingWorkers s; queue := queue s; softKills := softKills s; fetches
     := fetches s; launchingManager := launchingManager s;
     connectedClusterGroups := x; clustersSequentialFailedRestarts :=
     clustersSequentialFailedRestarts s; servicesSequentialFailedRestarts :=
     servicesSequentialFailedRestarts s; servicesToCreate := servicesToCreate
     s; clusterCount := clusterCount s; chunks := chunks s; resharding :=
     resharding s; workers := workers s; next_worker := next_worker s; timers
     := timers s; trace := trace s |}.

Definition upd_clustersSequentialFailedRestarts (x : gmap Z Z) (s : state) : state :=
  {| clusters := clusters s; services := services s; launchingWorkers :=
     launchingWorkers s; queue := queue s; softKills := softKills s; fetches
     := fetches s; launchingManager := launchingManager s;
     connectedClusterGroups := connectedClusterGroups s;
     clustersSequentialFailedRestarts := x; servicesSequentialFailedRestarts
     := servicesSequentialFailedRestarts s; servicesToCreate :=
     servicesToCreate s; clusterCount := clusterCount s; chunks := chunks s;
     resharding := resharding s; workers := workers s; next_worker :=
     next_worker s; timers := timers s; trace := trace s |}.

Definition upd_servicesSequentialFailedRestarts (x : gmap string Z) (s : state) : state :=
  {| clusters := clusters s; services := services s; launchingWorkers :=
     launchingWorkers s; queue := queue s; softKills := softKills s; fetches
     := fetches s; launchingManager := launchingManager s;
     connectedClusterGroups := connectedClusterGroups s;
     clustersSequentialFailedRestarts := clustersSequentialFailedRestarts s;
     servicesSequentialFailedRestarts := x; servicesToCreate :=
     servicesToCreate s; clusterCount := clusterCount s; chunks := chunks s;
     resharding := resharding s; workers := workers s; next_worker :=
     next_worker s; timers := timers s; trace := trace s |}.

Definition upd_servicesToCreate (x : option (list (string * string))) (s : state) : state :=
  {| clusters := clusters s; services := services s; launchingWorkers :=
     launchingWorkers s; queue := queue s; softKills := softKills s; fetches
     := fetches s; launchingManager := launchingManager s;
     connectedClusterGroups := connectedClusterGroups s;
     clustersSequentialFailedRestarts := clustersSequentialFailedRestarts s;
     servicesSequentialFailedRestarts := servicesSequentialFailedRestarts s;
     servicesToCreate := x; clusterCount := clusterCount s; chunks := chunks
     s; resharding := resharding s; workers := workers s; next_worker :=
     next_worker s; timers := timers s; trace := trace s |}.

Definition upd_clusterCount (x : nat) (s : state) : state :=
  {| clusters := clusters s; services := services s; launchingWorkers :=
     launchingWorkers s; queue := queue s; softKills := softKills s; fetches
     := fetches s; launchingManager := launchingManager s;
     connectedClusterGroups := connectedClusterGroups s;
     clustersSequentialFailedRestarts := clustersSequentialFailedRestarts s;
     servicesSequentialFailedRestarts := servicesSequentialFailedRestarts s;
     servicesToCreate := servicesToCreate s; clusterCount := x; chunks :=
     chunks s; resharding := resharding s; workers := workers s; next_worker
     := next_worker s; timers := timers s; trace := trace s |}.

Definition upd_chunks (x : option (list (list Z))) (s : state) : state :=
  {| clusters := clusters s; services := services s; launchingWorkers :=
     launchingWorkers s; queue := queue s; softKills := softKills s; fetches
     := fetches s; launchingManager := launchingManager s;
     connectedClusterGroups := connectedClusterGroups s;
     clustersSequentialFailedRestarts := clustersSequentialFailedRestarts s;
     servicesSequentialFailedRestarts := servicesSequentialFailedRestarts s;
     servicesToCreate := servicesToCreate s; clusterCount := clusterCount s;
     chunks := x; resharding := resharding s; workers := workers s;
     next_worker := next_worker s; timers := timers s; trace := trace s |}.

Definition upd_resharding (x : bool) (s : state) : state :=
  {| clusters := clusters s; services := services s; launchingWorkers :=
     launchingWorkers s; queue := queue s; softKills := softKills s; fetches
     := fetches s; launchingManager := launchingManager s;
     connectedClusterGroups := connectedClusterGroups s;
     clustersSequentialFailedRestarts := clustersSequentialFailedRestarts s;
     servicesSequentialFailedRestarts := servicesSequentialFailedRestarts s;
     servicesToCreate := servicesToCreate s; clusterCount := clusterCount s;
     chunks := chunks s; resharding := x; workers := workers s; next_worker :=
     next_worker s; timers := timers s; trace := trace s |}.

Definition upd_workers (x : gmap workerID Worker) (s : state) : state :=
  {| clusters := clusters s; services := services s; launchingWorkers :=
     launchingWorkers s; queue := queue s; softKills := softKills s; fetches
     := fetches s; launchingManager := launchingManager s;
     connectedClusterGroups := connectedClusterGroups s;
     clustersSequentialFailedRestarts := clustersSequentialFailedRestarts s;
     servicesSequentialFailedRestarts := servicesSequentialFailedRestarts s;
     servicesToCreate := servicesToCreate s; clusterCount := clusterCount s;
     chunks := chunks s; resharding := resharding s; workers := x; next_worker
     := next_worker s; timers := timers s; trace := trace s |}.

Definition upd_next_worker (x : workerID) (s : state) : state :=
  {| clusters := clusters s; services := services s; launchingWorkers :=
     launchingWorkers s; queue := queue s; softKills := softKills s; fetches
     := fetches s; launchingManager := launchingManager s;
     connectedClusterGroups := connectedClusterGroups s;
     clustersSequentialFailedRestarts := clustersSequentialFailedRestarts s;
     servicesSequentialFailedRestarts := servicesSequentialFailedRestarts s;
     servicesToCreate := servicesToCreate s; clusterCount := clusterCount s;
     chunks := chunks s; resharding := resharding s; workers := workers s;
     next_worker := x; timers := timers s; trace := trace s |}.

Definition upd_timers (x : list timer) (s : state) : state :=
  {| clusters := clusters s; services := services s; launchingWorkers :=
     launchingWorkers s; queue := queue s; softKills := softKills s; fetches
     := fetches s; launchingManager := launchingManager s;
     connectedClusterGroups := connectedClusterGroups s;
     clustersSequentialFailedRestarts := clustersSequentialFailedRestarts s;
     servicesSequentialFailedRestarts := servicesSequentialFailedRestarts s;
     servicesToCreate := servicesToCreate s; clusterCount := clusterCount s;
     chunks := chunks s; resharding := resharding s; workers := workers s;
     next_worker := next_worker s; timers := x; trace := trace s |}.

Definition upd_trace (x : list effect) (s : state) : state :=
  {| clusters := clusters s; services := services s; launchingWorkers :=
     launchingWorkers s; queue := queue s; softKills := softKills s; fetches
     := fetches s; launchingManager := launchingManager s;
     connectedClusterGroups := connectedClusterGroups s;
     clustersSequentialFailedRestarts := clustersSequentialFailedRestarts s;
     servicesSequentialFailedRestarts := servicesSequentialFailedRestarts s;
     servicesToCreate := servicesToCreate s; clusterCount := clusterCount s;
     chunks := chunks s; resharding := resharding s; workers := workers s;
     next_worker := next_worker s; timers := timers s; trace := x |}.

Section handlers.
Context (cfg : config).

(** *** Effects and the worker table *)

Definition perform (e : effect) (s : state) : state :=
  upd_trace (trace s ++ [e]) s.

(** [worker.send(m)]. *)
Definition send (w : workerID) (m : message) (s : state) : state :=
  perform (Sent w m) s.

(** [worker.kill()]. *)
Definition kill (w : workerID) (s : state) : state :=
  perform (Killed w) s.

(** [this.emit(e)] followed by
    [if (this.broadcastAdmiralEvents) this.broadcast(e)]. *)
Definition emit (e : admiral_event) (s : state) : state :=
  let s := perform (Emitted e) s in
  if broadcastAdmiralEvents cfg then perform (Broadcast e) s else s.

Definition set_timer (t : timer) (s : state) : state :=
  upd_timers (timers s ++ [t]) s.

(** [master.workers[id]] is defined. *)
Definition master_worker (s : state) (w : workerID) : bool :=
  match workers s !! w with
  | Some wk => negb (w_exited wk)
  | None => false
  end.

(** [master.fork({ type })]. *)
Definition fork (k : wkind) (s : state) : workerID * state :=
  let w := next_worker s in
  let s := upd_workers (<[w := {| w_type := k; w_exited := false |}]> (workers s)) s in
  let s := upd_next_worker (S w) s in
  (w, perform (Forked w k) s).

(** [this.queue.queue[i]]. *)
Definition queue_at (i : nat) (s : state) : option QueueItem :=
  Queue.queue (queue s) !! i.

(** [this.clusters.find((c) => c.workerID === id)] and the same on
    services. *)
Definition cluster_of_worker (m : JsMap.t Z ClusterRecord) (w : workerID)
    : option ClusterRecord :=
  JsMap.find (fun c => (c_workerID c =? w)%nat) m.

Definition service_of_worker (m : JsMap.t string ServiceRecord) (w : workerID)
    : option ServiceRecord :=
  JsMap.find (fun sv => (s_workerID sv =? w)%nat) m.

Definition with_c_workerID (w : workerID) (c : ClusterRecord) : ClusterRecord :=
  {| c_workerID := w; c_clusterID := c_clusterID c;
     c_firstShardID := c_firstShardID c; c_lastShardID := c_lastShardID c |}.

Definition with_s_workerID (w : workerID) (sv : ServiceRecord) : ServiceRecord :=
  {| s_workerID := w; s_serviceName := s_serviceName sv; s_path := s_path sv |}.

(** *** The queue listener (lines 596-679) *)

Inductive opcode := OpConnect | OpShutdown | OpOther.

Definition msg_op (m : message) : opcode :=
  match m with
  | ConnectCluster _ _ _ _ _ | ConnectService _ _ => OpConnect
  | ShutdownMsg => OpShutdown
  | _ => OpOther
  end.

(** [item.message.clusterID] and [item.message.serviceName]
    ([undefined] on other messages). *)
Definition msg_clusterID (m : message) : option Z :=
  match m with ConnectCluster id _ _ _ _ => Some id | _ => None end.

Definition msg_serviceName (m : message) : option string :=
  match m with ConnectService n _ => Some n | _ => None end.

(** [this.chunkConcurrencyGroups()] and [clusterToGroupMap.get(id)]. *)
Definition clusterToGroupMap (s : state) : list (Z * Z) :=
  Sharding.chunkConcurrencyGroups (clusterCount s) (maxConcurrency cfg).

Definition group_of (s : state) (id : option Z) : option Z :=
  id ≫= Sharding.group_get (clusterToGroupMap s).

(** The [concurrency] closure of the listener (lines 600-630) for
    [item]; the flag tells whether it ends by calling
    [this.queue.execute()]. *)
Definition concurrency (item : QueueItem) (s : state) : state * bool :=
  match qi_type item, queue_at 1 s with
  | TService, Some next =>
      if startServicesTogether cfg then
        match qi_type next with
        | TService =>
            (s, negb (bool_decide (msg_serviceName (qi_message item)
                                   = msg_serviceName (qi_message next))))
        | _ => (s, false)
        end
      else (s, false)
  | TCluster, Some next =>
      match qi_type next with
      | TCluster =>
          let currentClusterID := msg_clusterID (qi_message item) in
          let nextClusterID := msg_clusterID (qi_message next) in
          let currentClusterGroup := group_of s currentClusterID in
          let nextClusterGroup := group_of s nextClusterID in
          let s :=
            match currentClusterID with
            | Some id =>
                if Sharding.group_start_bitwise id (maxConcurrency cfg)
                   && bool_decide (currentClusterGroup = Some 0)
                   && log_concurrency_group_starting cfg
                   && (1 <? maxConcurrency cfg)
                then perform (StartingGroup 0) s else s
            | None => s
            end in
          (s, bool_decide (currentClusterGroup = nextClusterGroup))
      | _ => (s, false)
      end
  | _, _ => (s, false)
  end.

(** The listener applied to [item]; the flag tells whether it ends by
    calling [this.queue.execute()] again. *)
Definition on_execute (item : QueueItem) (s : state) : state * bool :=
  if master_worker s (qi_workerID item) then
    match msg_op (qi_message item) with
    | OpConnect =>
        match launchingManager s !! qi_workerID item with
        | Some _ =>
            let s := send (qi_workerID item) (qi_message item) s in
            let s := upd_launchingManager
                       (delete (qi_workerID item) (launchingManager s)) s in
            concurrency item s
        | None =>
            (upd_launchingManager
               (<[qi_workerID item := Waiting item]> (launchingManager s)) s,
             false)
        end
    | OpShutdown =>
        let s := send (qi_workerID item) (qi_message item) s in
        (set_timer (KillTimer item) s, false)
    | OpOther => (send (qi_workerID item) (qi_message item) s, false)
    end
  else (s, false).

(** The re-entrant [this.queue.execute()] of the listener: remove the
    head, signal the next item, and go on while the listener asks for
    it.  Every round removes one item, so the length of the queue plus
    one bounds the number of rounds. *)
Fixpoint execute_again (fuel : nat) (s : state) : option state :=
  match fuel with
  | O => None
  | S fuel' =>
      let r := Queue.execute false None (queue s) in
      let s := upd_queue r.1 s in
      match r.2 with
      | [] => Some s
      | (item, _) :: _ =>
          let r' := on_execute item s in
          if r'.2 then execute_again fuel' r'.1 else Some r'.1
      end
  end.

(** Delivery of an ["execute"] signal to the listener. *)
Definition listener (item : QueueItem) (s : state) : state :=
  let r := on_execute item s in
  if r.2
  then default r.1 (execute_again (S (length (Queue.queue (queue r.1)))) r.1)
  else r.1.

Definition deliver (r : Queue.t QueueItem * list (QueueItem * option QueueItem))
    (s : state) : state :=
  let s := upd_queue r.1 s in
  match r.2 with
  | [] => s
  | (item, _) :: _ => listener item s
  end.

(** [this.queue.execute(first, override)], [this.queue.item(item,
    override)] and [this.queue.bulkItems(items, override)] together with
    the listener they trigger. *)
Definition queue_execute (first : bool) (o : Queue.tag) (s : state) : state :=
  deliver (Queue.execute first o (queue s)) s.

Definition queue_item (i : QueueItem) (o : Queue.tag) (s : state) : state :=
  deliver (Queue.item i o (queue s)) s.

Definition queue_bulkItems (items : list QueueItem) (o : Queue.tag) (s : state)
    : state :=
  deliver (Queue.bulkItems items o (queue s)) s.

(** *** Soft-kill continuations, [shutdownWorker] and [restartWorker] *)

(** The callbacks that [restartWorker] passes to [shutdownWorker]
    (lines 2059-2067 and 2131-2137); [Object.assign(cluster, ...)]
    overwrites the [workerID] of the captured record. *)
Definition run_callback (cb : callback) (s : state) : state :=
  match cb with
  | NoCallback => s
  | RestartClusterKilled newWorker cluster =>
      let s := send newWorker LoadCode s in
      let s := upd_clusters (JsMap.delete (c_clusterID cluster) (clusters s)) s in
      upd_clusters
        (JsMap.set (c_clusterID cluster) (with_c_workerID newWorker cluster)
           (clusters s)) s
  | RestartServiceKilled newWorker service =>
      let s := upd_services (JsMap.delete (s_serviceName service) (services s)) s in
      upd_services
        (JsMap.set (s_serviceName service) (with_s_workerID newWorker service)
           (services s)) s
  end.

(** [shutdownWorker(worker, soft, callback, customMaps)]
    (lines 1910-2032); returns the queue item. *)
Definition shutdownWorker (worker : workerID) (soft : bool) (cb : callback)
    (customMaps : option CustomMaps) (s : state) : QueueItem * state :=
  let cluster :=
    match customMaps with
    | Some cm =>
        match cm_clusters cm with
        | Some m => cluster_of_worker m worker
        | None => cluster_of_worker (clusters s) worker
        end
    | None => cluster_of_worker (clusters s) worker
    end in
  let service :=
    match customMaps with
    | Some cm =>
        match cm_services cm with
        | Some m => service_of_worker m worker
        | None => service_of_worker (services s) worker
        end
    | None => service_of_worker (services s) worker
    end in
  let launchingWorker :=
    match customMaps with
    | Some cm =>
        match cm_launchingWorkers cm with
        | Some m => JsMap.get worker m
        | None => None
        end
    | None => JsMap.get worker (launchingWorkers s)
    end in
  let cluster :=
    match launchingWorker with
    | Some (LCluster c) => Some c
    | _ => cluster
    end in
  let service :=
    match launchingWorker with
    | Some (LService sv) => Some sv
    | _ => service
    end in
  let item (t : itype) :=
    {| qi_type := t; qi_workerID := worker; qi_message := ShutdownMsg |} in
  let custom := bool_decide (is_Some customMaps) in
  match cluster, service with
  | Some c, _ =>
      if soft then
        (item TCluster,
         upd_softKills (<[worker := ShutdownClusterFn worker c custom cb]> (softKills s)) s)
      else
        let s := kill worker s in
        let s := if custom then s
                 else upd_clusters (JsMap.delete (c_clusterID c) (clusters s)) s in
        (item TCluster, emit (ClusterShutdown (c_clusterID c)) s)
  | None, Some sv =>
      if soft then
        (item TService,
         upd_softKills (<[worker := ShutdownServiceFn worker sv custom cb]> (softKills s)) s)
      else
        let s := kill worker s in
        let s := if custom then s
                 else upd_services (JsMap.delete (s_serviceName sv) (services s)) s in
        (item TService, emit (ServiceShutdown (s_serviceName sv)) s)
  | None, None => (item TNone, s)
  end.

(** The [fn] of a [softKills] entry, called with [failed]. *)
Definition run_fn (fn : softKillFn) (failed : bool) (s : state) : state :=
  match fn with
  | ShutdownClusterFn worker cluster customMaps cb =>
      let s :=
        if customMaps then s
        else
          let s := upd_clusters (JsMap.delete (c_clusterID cluster) (clusters s)) s in
          upd_launchingWorkers (JsMap.delete worker (launchingWorkers s)) s in
      let s := upd_softKills (delete worker (softKills s)) s in
      let s :=
        if failed then s
        else kill worker (emit (ClusterShutdown (c_clusterID cluster)) s) in
      let s := queue_execute false (Some "shutdownWorker"%string) s in
      run_callback cb s
  | ShutdownServiceFn worker service customMaps cb =>
      let s :=
        if customMaps then s
        else
          let s := upd_services (JsMap.delete (s_serviceName service) (services s)) s in
          upd_launchingWorkers (JsMap.delete worker (launchingWorkers s)) s in
      let s := upd_softKills (delete worker (softKills s)) s in
      let s := kill worker s in
      let s := emit (ServiceShutdown (s_serviceName service)) s in
      let s := queue_execute false (Some "shutdownWorker"%string) s in
      run_callback cb s
  | RestartClusterFn newWorker worker cluster =>
      let s := upd_softKills (delete newWorker (softKills s)) s in
      let r := shutdownWorker worker true (RestartClusterKilled newWorker cluster) None s in
      queue_item r.1 None r.2
  | RestartServiceFn newWorker worker service =>
      let s := upd_softKills (delete newWorker (softKills s)) s in
      let r := shutdownWorker worker true (RestartServiceKilled newWorker service) None s in
      queue_item r.1 None r.2
  end.

(** [this.softKills.get(id)?.fn(failed)]. *)
Definition call_softKill (w : workerID) (failed : bool) (s : state) : state :=
  match softKills s !! w with
  | Some fn => run_fn fn failed s
  | None => s
  end.

(** [restartWorker(worker, manual, soft)] (lines 2033-2186); returns the
    [connect] item of the replacement, if any. *)
Definition restartWorker (worker : workerID) (manual soft : bool) (s : state)
    : option QueueItem * state :=
  match cluster_of_worker (clusters s) worker, service_of_worker (services s) worker with
  | Some cluster, _ =>
      let '(newWorker, s) := fork KCluster s in
      let s := upd_launchingWorkers
                 (JsMap.set newWorker (LCluster (with_c_workerID newWorker cluster))
                    (launchingWorkers s)) s in
      let s :=
        if soft then
          upd_softKills
            (<[newWorker := RestartClusterFn newWorker worker cluster]> (softKills s)) s
        else
          let s := upd_clusters (JsMap.delete (c_clusterID cluster) (clusters s)) s in
          let s := if manual then kill worker s
                   else perform (Warned (ClusterDied (c_clusterID cluster))) s in
          upd_clusters
            (JsMap.set (c_clusterID cluster) (with_c_workerID newWorker cluster)
               (clusters s)) s in
      (Some {| qi_type := TCluster; qi_workerID := newWorker;
               qi_message := ConnectCluster (c_clusterID cluster) (clusterCount s)
                               (c_firstShardID cluster) (c_lastShardID cluster)
                               (resharding s) |}, s)
  | None, Some service =>
      let '(newWorker, s) := fork KService s in
      let s := upd_launchingWorkers
                 (JsMap.set newWorker (LService (with_s_workerID newWorker service))
                    (launchingWorkers s)) s in
      let s :=
        if soft then
          upd_softKills
            (<[newWorker := RestartServiceFn newWorker worker service]> (softKills s)) s
        else
          let s := upd_services (JsMap.delete (s_serviceName service) (services s)) s in
          let s := if manual then kill worker s
                   else perform (Warned (ServiceDied (s_serviceName service))) s in
          upd_services
            (JsMap.set (s_serviceName service) (with_s_workerID newWorker service)
               (services s)) s in
      (Some {| qi_type := TService; qi_workerID := newWorker;
               qi_message := ConnectService (s_serviceName service) (s_path service) |}, s)
  | None, None => (None, s)
  end.

(** [const item = this.restartWorker(...); if (item) this.queue.item(item)]. *)
Definition restart_and_queue (worker : workerID) (manual soft : bool) (s : state)
    : state :=
  let r := restartWorker worker manual soft s in
  match r.1 with
  | Some item => queue_item item None r.2
  | None => r.2
  end.

(** *** Worker messages (lines 301-531) *)

(** [launched] (lines 304-315): the [waiting] closure is
    [worker.send(item.message); concurrency()]. *)
Definition on_launched (worker : workerID) (s : state) : state :=
  match launchingManager s !! worker with
  | Some lr =>
      let s :=
        match lr with
        | LaunchedFlag => s
        | Waiting item =>
            let s := send (qi_workerID item) (qi_message item) s in
            let r := concurrency item s in
            if r.2 then queue_execute false None r.1 else r.1
        end in
      upd_launchingManager (delete worker (launchingManager s)) s
  | None =>
      upd_launchingManager (<[worker := LaunchedFlag]> (launchingManager s)) s
  end.

(** [Object.entries(clusterToGroupMap)]: a [Map] instance has no own
    enumerable string-keyed properties, so the result is empty whatever
    the map holds. *)
Definition Object_entries_of_Map (m : list (Z * Z)) : list (string * Z) := [].

(** The end of the [connected] handler (lines 360-406), which decides
    whether the queue moves on. *)
Definition connected_advance (launchedWorker : LaunchingEntry) (s : state) : state :=
  match queue_at 1 s with
  | Some q1 =>
      let q0_type := qi_type <$> queue_at 0 s in
      if bool_decide (qi_type q1 = TCluster) && bool_decide (q0_type = Some TCluster) then
        match launchedWorker with
        | LService _ => perform Thrown s
        | LCluster cluster =>
            match Sharding.group_get (clusterToGroupMap s) (c_clusterID cluster) with
            | None => perform (Errored InvalidClusterGroup) s
            | Some clusterGroupID =>
                let groupConnectedTotal :=
                  default 0 (connectedClusterGroups s !! clusterGroupID) + 1 in
                let s := upd_connectedClusterGroups
                           (<[clusterGroupID := groupConnectedTotal]>
                              (connectedClusterGroups s)) s in
                let groupConnectedMax :=
                  Z.of_nat (length (List.filter (fun e => e.2 =? clusterGroupID)
                                      (Object_entries_of_Map (clusterToGroupMap s)))) in
                if groupConnectedMax <=? groupConnectedTotal then
                  let s :=
                    if log_concurrency_group_starting cfg && (1 <? maxConcurrency cfg)
                    then perform (StartingGroup (clusterGroupID + 1)) s else s in
                  set_timer QueueExecuteTimer s
                else s
            end
        end
      else if startServicesTogether cfg
              && bool_decide (qi_type q1 = TCluster)
              && bool_decide (q0_type = Some TService) then
        match servicesToCreate s with
        | Some l =>
            if (length l <=? JsMap.size (services s))%nat
            then queue_execute false None s else s
        | None => s
        end
      else queue_execute false None s
  | None =>
      let s := queue_execute false None s in
      let s := emit Ready s in
      upd_connectedClusterGroups ∅ s
  end.

(** [connected] (lines 316-408).  The outstanding fetches are re-sent to
    a new cluster on the next tick, that is after the handler's own
    effects. *)
Definition on_connected (worker : workerID) (s : state) : state :=
  match JsMap.get worker (launchingWorkers s) with
  | None => perform (Errored LaunchedWorkerUndefined) s
  | Some launchedWorker =>
      let pending := JsMap.values (fetches s) in
      let s :=
        match launchedWorker with
        | LCluster cluster =>
            let s :=
              match softKills s !! worker with
              | Some _ => s
              | None =>
                  upd_clusters
                    (JsMap.set (c_clusterID cluster) (with_c_workerID worker cluster)
                       (clusters s)) s
              end in
            emit (ClusterReady (c_clusterID cluster)) s
        | LService service =>
            let s :=
              match softKills s !! worker with
              | Some _ => s
              | None =>
                  upd_services
                    (JsMap.set (s_serviceName service) (with_s_workerID worker service)
                       (services s)) s
              end in
            emit (ServiceReady (s_serviceName service)) s
        end in
      let s := upd_launchingWorkers (JsMap.delete worker (launchingWorkers s)) s in
      let s :=
        if negb (resharding s) && negb (bool_decide (is_Some (softKills s !! worker)))
        then send worker LoadCode s else s in
      let s := call_softKill worker false s in
      let s := connected_advance launchedWorker s in
      match launchedWorker with
      | LCluster _ =>
          foldl (fun s f => send worker (FetchMsg (f_op f) (f_id f) (f_UUID f)) s)
            s pending
      | LService _ => s
      end
  end.

(** [codeLoaded] (lines 409-423). *)
Definition on_codeLoaded (worker : workerID) (s : state) : state :=
  match cluster_of_worker (clusters s) worker, service_of_worker (services s) worker with
  | Some cluster, _ =>
      upd_clustersSequentialFailedRestarts
        (delete (c_clusterID cluster) (clustersSequentialFailedRestarts s)) s
  | None, Some service =>
      upd_servicesSequentialFailedRestarts
        (delete (s_serviceName service) (servicesSequentialFailedRestarts s)) s
  | None, None => s
  end.

(** [shutdown], the acknowledgment of a worker (lines 424-430): the
    entry looked up is that of the queue head, whoever sent the
    message; reading [queue[0].workerID] on an empty queue throws. *)
Definition on_shutdown (worker : workerID) (s : state) : state :=
  match queue_at 0 s with
  | None => perform Thrown s
  | Some q0 => call_softKill (qi_workerID q0) false s
  end.

(** *** The [exit] handler (lines 542-595) *)

(** [if (this.queue.queue[0].workerID === worker.id) this.queue.execute()]. *)
Definition advance_if_head (worker : workerID) (s : state) : state :=
  match queue_at 0 s with
  | None => perform Thrown s
  | Some q0 =>
      if (qi_workerID q0 =? worker)%nat then queue_execute false None s else s
  end.

Definition on_exit (worker : workerID) (s : state) : state :=
  let cluster := cluster_of_worker (clusters s) worker in
  let service := service_of_worker (services s) worker in
  match softKills s !! worker with
  | Some _ =>
      let s := perform (Warned (DiedDuringSoftKill worker)) s in
      let s := queue_execute false None s in
      call_softKill worker true s
  | None =>
      if maxRestarts cfg =? -1 then restart_and_queue worker false false s
      else
        match cluster, service with
        | Some c, _ =>
            let totalRestarts :=
              default 0 (clustersSequentialFailedRestarts s !! c_clusterID c) in
            if maxRestarts cfg <=? totalRestarts then
              let s := perform (Warned (MaxRestartsCluster (c_clusterID c))) s in
              let s := upd_clustersSequentialFailedRestarts
                         (delete (c_clusterID c) (clustersSequentialFailedRestarts s)) s in
              advance_if_head worker s
            else
              let s := upd_clustersSequentialFailedRestarts
                         (<[c_clusterID c := totalRestarts + 1]>
                            (clustersSequentialFailedRestarts s)) s in
              restart_and_queue worker false false s
        | None, Some sv =>
            let totalRestarts :=
              default 0 (servicesSequentialFailedRestarts s !! s_serviceName sv) in
            if maxRestarts cfg <=? totalRestarts then
              let s := perform (Warned (MaxRestartsService (s_serviceName sv))) s in
              let s := upd_servicesSequentialFailedRestarts
                         (delete (s_serviceName sv) (servicesSequentialFailedRestarts s)) s in
              advance_if_head worker s
            else
              let s := upd_servicesSequentialFailedRestarts
                         (<[s_serviceName sv := totalRestarts + 1]>
                            (servicesSequentialFailedRestarts s)) s in
              restart_and_queue worker false false s
        | None, None => restart_and_queue worker false false s
        end
  end.

(** *** Timers *)

(** The kill timer set by the listener for a [shutdown] item
    (lines 648-673). *)
Definition on_kill_timer (item : QueueItem) (s : state) : state :=
  match queue_at 0 s with
  | Some q0 =>
      if (qi_workerID q0 =? qi_workerID item)%nat then
        if master_worker s (qi_workerID item) then
          let s := kill (qi_workerID item) s in
          let s := perform (Warned (SafeShutdownFailed (qi_workerID item))) s in
          call_softKill (qi_workerID item) true s
        else s
      else s
  | None => s
  end.

(** [requestWorker.send({ op: "return", id, value })]: the orchestrator's
    own pseudo-worker forwards a [return] to its IPC emitter (lines
    269-276). *)
Definition send_to_requester (r : requester) (id : string) (value : option string)
    (s : state) : state :=
  match r with
  | Master => perform (IpcEmitted id value) s
  | FromWorker w => send w (Return id value) s
  end.

(** The timeout of [fetchInfo] (lines 2199-2210). *)
Definition on_fetch_timer (id : string) (requestWorker : requester) (s : state)
    : state :=
  match JsMap.get (id, requestWorker) (fetches s) with
  | Some _ =>
      let s := upd_fetches (JsMap.delete (id, requestWorker) (fetches s)) s in
      send_to_requester requestWorker id None s
  | None => s
  end.

Definition on_timer (t : timer) (s : state) : state :=
  match t with
  | QueueExecuteTimer => queue_execute false None s
  | KillTimer item => on_kill_timer item s
  | FetchTimer id requestWorker => on_fetch_timer id requestWorker s
  end.

(** *** Targeted fetch (lines 2187-2211 and 1300-1341) *)

(** The clusters reached by [for (let i = 0; this.clusters.get(i); i++)]:
    the map is finite, so [JsMap.size] rounds reach the first gap. *)
Fixpoint fetch_targets (fuel : nat) (i : Z) (m : JsMap.t Z ClusterRecord)
    : list ClusterRecord :=
  match fuel with
  | O => []
  | S fuel' =>
      match JsMap.get i m with
      | Some c => c :: fetch_targets fuel' (i + 1) m
      | None => []
      end
  end.

(** [fetchInfo(op, id, requestWorker)]; the map key
    [JSON.stringify({ id, UUID })] is represented by the pair. *)
Definition fetchInfo (op id : string) (requestWorker : requester) (s : state)
    : state :=
  let s := upd_fetches
             (JsMap.set (id, requestWorker)
                {| f_UUID := requestWorker; f_op := op; f_id := id; f_checked := 0 |}
                (fetches s)) s in
  let s := set_timer (FetchTimer id requestWorker) s in
  foldl (fun s c =>
           if master_worker s (c_workerID c)
           then send (c_workerID c) (FetchMsg op id requestWorker) s else s)
    s (fetch_targets (JsMap.size (clusters s)) 0 (clusters s)).

(** [sendReturn(value)] of [ipcReturn]. *)
Definition sendReturn (UUID : requester) (id : string) (value : option string)
    (s : state) : state :=
  match UUID with
  | Master => perform (IpcEmitted id value) s
  | FromWorker w =>
      if master_worker s w then send w (Return id value) s else s
  end.

(** [ipcReturn(message)] for a reply [{ UUID, value: { id, noValue, ... } }]:
    [value = None] stands for [noValue], [Some v] for a found value. *)
Definition ipcReturn (UUID : requester) (id : string) (value : option string)
    (s : state) : state :=
  let key := (id, UUID) in
  match value with
  | None =>
      match JsMap.get key (fetches s) with
      | Some fetch =>
          let clustersLaunching :=
            length (List.filter
                      (fun e => match e with LCluster _ => true | LService _ => false end)
                      (JsMap.values (launchingWorkers s))) in
          if (f_checked fetch + 1 =? JsMap.size (clusters s) + clustersLaunching)%nat
          then
            let s := sendReturn UUID id None s in
            upd_fetches (JsMap.delete key (fetches s)) s
          else
            upd_fetches
              (JsMap.set key
                 {| f_UUID := f_UUID fetch; f_op := f_op fetch; f_id := f_id fetch;
                    f_checked := f_checked fetch + 1 |} (fetches s)) s
      | None => s
      end
  | Some v =>
      let s := upd_fetches (JsMap.delete key (fetches s)) s in
      sendReturn UUID id (Some v) s
  end.

(** *** Public methods (lines 1378-1493) *)

Definition restartCluster (clusterID : Z) (hard : bool) (s : state) : state :=
  match JsMap.get clusterID (clusters s) with
  | None => s
  | Some clusterObj =>
      if master_worker s (c_workerID clusterObj)
      then restart_and_queue (c_workerID clusterObj) true (negb hard) s
      else s
  end.

Definition restartService (serviceName : string) (hard : bool) (s : state) : state :=
  match JsMap.get serviceName (services s) with
  | None => s
  | Some serviceObj =>
      if master_worker s (s_workerID serviceObj)
      then restart_and_queue (s_workerID serviceObj) true (negb hard) s
      else s
  end.

Definition shutdownCluster (clusterID : Z) (hard : bool) (s : state) : state :=
  match JsMap.get clusterID (clusters s) with
  | None => s
  | Some clusterObj =>
      if master_worker s (c_workerID clusterObj) then
        let r := shutdownWorker (c_workerID clusterObj) (negb hard) NoCallback None s in
        queue_item r.1 None r.2
      else s
  end.

(** [array.splice(array.findIndex(p), 1)]: an index of [-1] removes the
    last element. *)
Fixpoint splice_found {A} (p : A -> bool) (l : list A) : option (list A) :=
  match l with
  | [] => None
  | x :: l' =>
      if p x then Some l'
      else cons x <$> splice_found p l'
  end.

Definition splice_findIndex {A} (p : A -> bool) (l : list A) : list A :=
  match splice_found p l with
  | Some l' => l'
  | None => removelast l
  end.

Definition shutdownService (serviceName : string) (hard : bool) (s : state) : state :=
  match JsMap.get serviceName (services s) with
  | None => s
  | Some serviceObj =>
      let s :=
        if master_worker s (s_workerID serviceObj) then
          let r := shutdownWorker (s_workerID serviceObj) (negb hard) NoCallback None s in
          queue_item r.1 None r.2
        else s in
      match servicesToCreate s with
      | Some l =>
          upd_servicesToCreate
            (Some (splice_findIndex (fun sc => String.eqb sc.1 serviceName) l)) s
      | None => s
      end
  end.

(** *** Launch (lines 1230-1281 and 1732-1852) *)

(** [startService(servicesToStart, onlyServices)]: fork one worker per
    service and queue the [connect] items at once; the call of
    [startCluster] on the next tick is made by [launch] below. *)
Definition startService (servicesToStart : list (string * string)) (s : state)
    : state :=
  let r :=
    foldl (fun (acc : list QueueItem * state) (service : string * string) =>
             let '(worker, s) := fork KService acc.2 in
             let s := upd_launchingWorkers
                        (JsMap.set worker
                           (LService {| s_workerID := worker;
                                        s_serviceName := service.1;
                                        s_path := service.2 |})
                           (launchingWorkers s)) s in
             (acc.1 ++ [{| qi_type := TService; qi_workerID := worker;
                           qi_message := ConnectService service.1 service.2 |}], s))
      ([], s) servicesToStart in
  queue_bulkItems r.1 None r.2.

(** [this.launchingWorkers.find((w) => w.cluster?.clusterID === ID)]. *)
Definition launching_cluster (ID : Z) (s : state) : option ClusterRecord :=
  match JsMap.find
          (fun e => match e with
                    | LCluster c => c_clusterID c =? ID
                    | LService _ => false
                    end) (launchingWorkers s) with
  | Some (LCluster c) => Some c
  | _ => None
  end.

Definition Math_min (l : list Z) : num :=
  match l with
  | [] => Infinity
  | x :: l' => Num (foldl Z.min x l')
  end.

Definition Math_max (l : list Z) : num :=
  match l with
  | [] => NegInfinity
  | x :: l' => Num (foldl Z.max x l')
  end.

(** The three loops of [startCluster]; a loop stops with [false] when
    [find] returns [undefined] and reading [.cluster] throws. *)
Definition fork_clusters (s : state) : state :=
  foldl (fun s i =>
           let '(worker, s) := fork KCluster s in
           upd_launchingWorkers
             (JsMap.set worker
                (LCluster {| c_workerID := worker; c_clusterID := Z.of_nat i;
                             c_firstShardID := Num 0; c_lastShardID := Num 0 |})
                (launchingWorkers s)) s)
    s (seq 0 (clusterCount s)).

Fixpoint assign_chunks (cs : list (list Z)) (clusterID : Z) (s : state)
    : state * bool :=
  match cs with
  | [] => (s, true)
  | chunk :: rest =>
      match launching_cluster clusterID s with
      | None => (s, false)
      | Some c =>
          assign_chunks rest (clusterID + 1)
            (upd_launchingWorkers
               (JsMap.set (c_workerID c)
                  (LCluster {| c_workerID := c_workerID c; c_clusterID := clusterID;
                               c_firstShardID := Math_min chunk;
                               c_lastShardID := Math_max chunk |})
                  (launchingWorkers s)) s)
      end
  end.

Fixpoint connect_items (ids : list nat) (s : state) : option (list QueueItem) :=
  match ids with
  | [] => Some []
  | i :: rest =>
      match launching_cluster (Z.of_nat i) s with
      | None => None
      | Some cluster =>
          cons {| qi_type := TCluster; qi_workerID := c_workerID cluster;
                  qi_message := ConnectCluster (Z.of_nat i) (clusterCount s)
                                  (c_firstShardID cluster) (c_lastShardID cluster)
                                  (resharding s) |}
            <$> connect_items rest s
      end
  end.

Definition startCluster (s : state) : state :=
  let s := fork_clusters s in
  let r := match chunks s with
           | Some cs => assign_chunks cs 0 s
           | None => (s, true)
           end in
  if r.2 then
    match connect_items (seq 0 (clusterCount r.1)) r.1 with
    | Some queueItems => queue_bulkItems queueItems None r.1
    | None => perform Thrown r.1
    end
  else perform Thrown r.1.

(** The shard IDs [firstShardID .. lastShardID]. *)
Definition shardsByID (first last : Z) : list Z :=
  (fun i => first + Z.of_nat i) <$> seq 0 (Z.to_nat (last - first + 1)).

(** [launch()], run on the result [shards] of [calculateShards()]; the
    first launch passes the configured last shard ID, which is replaced
    by [shards - 1] when it is 0.  [chunk] always returns
    ([chunk_fuel_spec]). *)
Definition launch (shards : Z) (s : state) : state :=
  let s := upd_launchingWorkers [] s in
  let last := if lastShardID cfg =? 0 then shards - 1 else lastShardID cfg in
  match Sharding.chunk (shardsByID (firstShardID cfg) last) (options_clusters cfg) with
  | None => s
  | Some cs =>
      let s := upd_chunks (Some cs) s in
      let s := upd_clusterCount (length cs) s in
      match servicesToCreate s with
      | Some l =>
          if resharding s then startCluster s
          else startCluster (startService l s)
      | None => startCluster s
      end
  end.

(** The orchestrator right after construction. *)
Definition init : state :=
  {| clusters := []; services := []; launchingWorkers := [];
     queue := Queue.mk [] None; softKills := ∅; fetches := [];
     launchingManager := ∅; connectedClusterGroups := ∅;
     clustersSequentialFailedRestarts := ∅;
     servicesSequentialFailedRestarts := ∅;
     servicesToCreate := options_services cfg;
     clusterCount := 0; chunks := None; resharding := false;
     workers := ∅; next_worker := 1%nat; timers := []; trace := [] |}.

(** *** Events and runs *)

Inductive event :=
| MsgLaunched (w : workerID)
| MsgConnected (w : workerID)
| MsgCodeLoaded (w : workerID)
| MsgShutdown (w : workerID)
| MsgFetch (op id : string) (w : requester)
| MsgReturn (UUID : requester) (id : string) (value : option string)
| WorkerExit (w : workerID)
| TimerFires (n : nat)
| CallRestartCluster (clusterID : Z) (hard : bool)
| CallRestartService (serviceName : string) (hard : bool)
| CallShutdownCluster (clusterID : Z) (hard : bool)
| CallShutdownService (serviceName : string) (hard : bool).

Definition mark_exited (w : workerID) (s : state) : state :=
  upd_workers
    (alter (fun wk => {| w_type := w_type wk; w_exited := true |}) w (workers s)) s.

(** One event handled to completion.  Messages and the [exit] event come
    from workers that are in [master.workers]; the [n]-th pending timer
    may fire at any time. *)
Definition step (s : state) (e : event) : state :=
  match e with
  | MsgLaunched w => if master_worker s w then on_launched w s else s
  | MsgConnected w => if master_worker s w then on_connected w s else s
  | MsgCodeLoaded w => if master_worker s w then on_codeLoaded w s else s
  | MsgShutdown w => if master_worker s w then on_shutdown w s else s
  | MsgFetch op id r =>
      match r with
      | FromWorker w => if master_worker s w then fetchInfo op id r s else s
      | Master => fetchInfo op id r s
      end
  | MsgReturn UUID id value => ipcReturn UUID id value s
  | WorkerExit w => if master_worker s w then on_exit w (mark_exited w s) else s
  | TimerFires n =>
      match timers s !! n with
      | Some t => on_timer t (upd_timers (take n (timers s) ++ drop (S n) (timers s)) s)
      | None => s
      end
  | CallRestartCluster clusterID hard => restartCluster clusterID hard s
  | CallRestartService serviceName hard => restartService serviceName hard s
  | CallShutdownCluster clusterID hard => shutdownCluster clusterID hard s
  | CallShutdownService serviceName hard => shutdownService serviceName hard s
  end.

Definition run (s : state) (es : list event) : state := foldl step s es.





End handlers.




(** The part of the state that the queue and its listener leave alone:
    they only touch the queue itself, [launchingManager], the timers and
    the trace. *)
Definition core (s : state) :=
  (clusters s, services s, launchingWorkers s, softKills s, fetches s,
   connectedClusterGroups s, clustersSequentialFailedRestarts s,
   servicesSequentialFailedRestarts s, servicesToCreate s, clusterCount s,
   chunks s, resharding s, workers s, next_worker s).

(** The three stores of worker IDs, the soft-kill continuations and the
    worker table. *)
Definition registry (s : state) :=
  (clusters s, services s, launchingWorkers s, softKills s, workers s,
   next_worker s).

(** The type a worker was forked with. *)
Definition kind_of (s : state) (w : workerID) : option wkind :=
  w_type <$> workers s !! w.

Definition entry_kind (e : LaunchingEntry) : wkind :=
  match e with LCluster _ => KCluster | LService _ => KService end.

Definition entry_workerID (e : LaunchingEntry) : workerID :=
  match e with LCluster c => c_workerID c | LService sv => s_workerID sv end.

(** A continuation only ever registers its replacement worker under the
    type that worker was forked with. *)
Definition cb_ok (s : state) (cb : callback) : Prop :=
  match cb with
  | NoCallback => True
  | RestartClusterKilled newWorker _ => kind_of s newWorker = Some KCluster
  | RestartServiceKilled newWorker _ => kind_of s newWorker = Some KService
  end.

Definition fn_ok (s : state) (fn : softKillFn) : Prop :=
  match fn with
  | ShutdownClusterFn _ _ _ cb | ShutdownServiceFn _ _ _ cb => cb_ok s cb
  | RestartClusterFn newWorker _ _ => kind_of s newWorker = Some KCluster
  | RestartServiceFn newWorker _ _ => kind_of s newWorker = Some KService
  end.

(** The invariant behind the disjointness of the registries: every
    worker ID recorded anywhere is recorded under the type it was forked
    with, and IDs not yet handed out are recorded nowhere. *)
Definition kinds_consistent (s : state) : Prop :=
  (forall c, c ∈ JsMap.values (clusters s) ->
             kind_of s (c_workerID c) = Some KCluster)
  /\ (forall sv, sv ∈ JsMap.values (services s) ->
                 kind_of s (s_workerID sv) = Some KService)
  /\ (forall w e, (w, e) ∈ launchingWorkers s ->
                  kind_of s w = Some (entry_kind e) /\ entry_workerID e = w)
  /\ (forall w fn, softKills s !! w = Some fn -> fn_ok s fn)
  /\ (forall w, is_Some (workers s !! w) -> (w < next_worker s)%nat).

(** Worker types are never forgotten or changed. *)
Definition kinds_le (s s' : state) : Prop :=
  forall w k, kind_of s w = Some k -> kind_of s' w = Some k.



End Admiral.

(** ** Concrete runs used below *)

Module Scenarios.
Import Admiral.
Local Open Scope Z_scope.

(** Three clusters on three shards, at most two sessions started
    concurrently: clusters 0 and 1 form group 0, cluster 2 is group 1. *)
Definition three_clusters : config :=
  {| maxConcurrency := 2; maxRestarts := 5; startServicesTogether := false;
     broadcastAdmiralEvents := false; log_concurrency_group_starting := true;
     firstShardID := 0; lastShardID := 0; options_clusters := 3;
     options_services := None |}.

(** All three workers have booted, cluster 0 has connected, and the
    timer set by its [connected] handler fires while cluster 1 is still
    connecting. *)
Definition early_release : list event :=
  [MsgLaunched 1; MsgLaunched 2; MsgLaunched 3; MsgConnected 1; TimerFires 0]%nat.

(** One service (worker 1) and one cluster (worker 2), at most
    [restarts] sequential restarts. *)
Definition service_and_cluster (restarts : Z) : config :=
  {| maxConcurrency := 1; maxRestarts := restarts; startServicesTogether := false;
     broadcastAdmiralEvents := false; log_concurrency_group_starting := true;
     firstShardID := 0; lastShardID := 0; options_clusters := 1;
     options_services := Some [("svc", "/srv/svc.js")]%string |}.

(** Both workers boot and connect; the fleet is ready. *)
Definition fleet_ready : list event :=
  [MsgLaunched 1; MsgLaunched 2; MsgConnected 1; MsgConnected 2]%nat.

Definition ready_state (restarts : Z) : state :=
  run (service_and_cluster restarts) (launch (service_and_cluster restarts) 1
                                        (init (service_and_cluster restarts)))
    fleet_ready.

(** An [Error] with a status code, as thrown by the request handler. *)
Definition boom : Serialization.value :=
  Serialization.VErr (Serialization.VStr "Error") (Serialization.VStr "boom")
    (Serialization.VStr "Error: boom at request")
    [("code", Serialization.VNum 500)]%string.
End Scenarios.

(* ===================================================================== *)
(** * Part II: properties *)
(* ===================================================================== *)

Section sharding_facts.
Import Sharding.
Local Open Scope Z_scope.

Example chunk_ten_three :
  chunk [0; 1; 2; 3; 4; 5; 6; 7; 8; 9] 3 = Some [[0; 1; 2; 3]; [4; 5; 6]; [7; 8; 9]].
Proof. reflexivity. Qed.

Example groups_five_two :
  chunkConcurrencyGroups 5 2 = [(0, 0); (1, 0); (2, 1); (3, 1); (4, 2)].
Proof. reflexivity. Qed.

Lemma slice_take_drop {A} (l : list A) (i sz : Z) :
  0 <= i <= Z.of_nat (length l) -> 0 <= sz ->
  slice l i (i + sz) = take (Z.to_nat sz) (drop (Z.to_nat i) l).
Proof.
  intros Hi Hsz. unfold slice.
  destruct (Z.ltb_spec i 0); [lia|].
  destruct (Z.ltb_spec (i + sz) 0); [lia|].
  rewrite (Z.min_l i) by lia.
  destruct (Z.le_gt_cases (i + sz) (Z.of_nat (length l))).
  - rewrite Z.min_l by lia. f_equal. lia.
  - rewrite Z.min_r by lia.
    rewrite !take_ge; [done| |]; rewrite length_drop; lia.
Qed.

Lemma ceil_div_bounds (a c : Z) :
  0 < c -> c * (ceil_div a c - 1) < a <= c * ceil_div a c.
Proof.
  intros Hc. unfold ceil_div.
  pose proof (Z.div_mod (- a) c ltac:(lia)).
  pose proof (Z.mod_pos_bound (- a) c Hc). nia.
Qed.

Lemma floor_div_bounds (a c : Z) :
  0 < c -> c * (a / c) <= a < c * (a / c + 1).
Proof.
  intros Hc.
  pose proof (Z.div_mod a c ltac:(lia)).
  pose proof (Z.mod_pos_bound a c Hc). nia.
Qed.


Lemma desc_from_mono (hi hi' : Z) (szs : list Z) :
  hi <= hi' -> desc_from hi szs -> desc_from hi' szs.
Proof. destruct szs; simpl; [done|]. intros ? [? ?]. split; [lia|done]. Qed.

Lemma desc_from_lookup (szs : list Z) : forall (hi : Z) (i : nat) (a : Z),
  desc_from hi szs -> szs !! i = Some a -> a <= hi.
Proof.
  induction szs as [|x szs IH]; intros hi i a Hd Hi; [done|].
  destruct Hd as [Hx Hd]. destruct i as [|i]; simpl in Hi.
  - by simplify_eq.
  - specialize (IH x i a Hd Hi). lia.
Qed.

Lemma desc_from_balanced (lo hi : Z) (szs : list Z) :
  hi <= lo + 1 -> Forall (fun a => lo <= a) szs -> desc_from hi szs ->
  balanced szs.
Proof.
  intros Hhi Hlo Hd i. revert hi szs Hhi Hlo Hd.
  induction i as [|i IH]; intros hi szs Hhi Hlo Hd j a b Hij Ha Hb.
  - destruct szs as [|x szs]; [done|]. simpl in Ha. simplify_eq.
    destruct Hd as [Hx Hd].
    assert (lo <= b) by (eapply (proj1 (Forall_lookup _ _) Hlo); eauto).
    destruct j as [|j]; simpl in Hb; [simplify_eq; lia|].
    pose proof (desc_from_lookup _ _ _ _ Hd Hb). lia.
  - destruct szs as [|x szs]; [done|]. destruct j as [|j]; [lia|].
    simpl in Ha, Hb. destruct Hd as [Hx Hd]. apply Forall_cons in Hlo as [Hlx Hlo].
    apply (IH x szs ltac:(lia) Hlo Hd j a b); [lia|done|done].
Qed.

Lemma chunk_uneven_spec {A} (shards : list A) (fuel : nat) :
  forall (c i : Z) (r : list (list A)),
    0 <= i <= Z.of_nat (length shards) -> 0 <= c ->
    (i < Z.of_nat (length shards) -> 1 <= c) ->
    (Z.to_nat (Z.of_nat (length shards) - i) <= fuel)%nat ->
    exists gs,
      chunk_uneven fuel shards (Z.of_nat (length shards)) c i r = Some (r ++ gs)
      /\ concat gs = drop (Z.to_nat i) shards
      /\ Z.of_nat (length gs) = Z.min c (Z.of_nat (length shards) - i)
      /\ Forall (fun a => (Z.of_nat (length shards) - i) / c <= a) (sizes gs)
      /\ desc_from (ceil_div (Z.of_nat (length shards) - i) c) (sizes gs).
Proof.
  set (len := Z.of_nat (length shards)).
  induction fuel as [|fuel IH]; intros c i r Hi Hc0 Hc Hfuel; simpl;
    destruct (Z.ltb_spec i len) as [Hlt|Hge]; try lia.
  1,3: exists []; rewrite app_nil_r; split; [done|];
    split; [by rewrite drop_ge by lia|];
    split; [simpl; lia|]; split; [constructor|done].
  specialize (Hc Hlt). destruct (Z.leb_spec c 0) as [?|_]; [lia|].
  set (s := ceil_div (len - i) c).
  pose proof (ceil_div_bounds (len - i) c ltac:(lia)) as Hs. fold s in Hs.
  pose proof (floor_div_bounds (len - i) c ltac:(lia)) as Hq.
  assert (1 <= s <= len - i) as Hs1 by nia.
  destruct (IH (c - 1) (i + s) (r ++ [slice shards i (i + s)]))
    as (gs & Heq & Hcat & Hlen & Hlo & Hdesc); [lia|lia|intros; nia|lia|].
  assert (length (slice shards i (i + s)) = Z.to_nat s) as Hsl.
  { rewrite slice_take_drop by (fold len; lia).
    rewrite length_take, length_drop. lia. }
  exists (slice shards i (i + s) :: gs).
  split; [by rewrite Heq, <- app_assoc|].
  split.
  { simpl. rewrite Hcat, slice_take_drop by (fold len; lia).
    replace (Z.to_nat (i + s)) with (Z.to_nat i + Z.to_nat s)%nat by lia.
    by rewrite <- drop_drop, take_drop. }
  split; [simpl length; nia|].
  destruct (decide (c = 1)) as [->|Hc1].
  { assert (gs = []) as -> by (destruct gs; [done|simpl in Hlen; lia]).
    simpl. rewrite Hsl. split; [constructor; [nia|constructor]|]. split; [lia|done]. }
  pose proof (ceil_div_bounds (len - (i + s)) (c - 1) ltac:(lia)) as Hs'.
  pose proof (floor_div_bounds (len - (i + s)) (c - 1) ltac:(lia)) as Hq'.
  split.
  - simpl. constructor; [rewrite Hsl; nia|].
    eapply Forall_impl; [exact Hlo|]. simpl. intros a Ha.
    etrans; [|exact Ha]. apply Z.div_le_lower_bound; [lia|].
    set (q := (len - i) / c) in *.
    assert (s <= q + 1) by nia.
    destruct (decide (s <= q)); nia.
  - simpl. rewrite Hsl. split; [lia|].
    eapply desc_from_mono; [|exact Hdesc].
    set (s' := ceil_div (len - (i + s)) (c - 1)) in *.
    assert ((c - 1) * (s' - 1) < (c - 1) * s) by nia. nia.
Qed.

Lemma chunk_even_spec {A} (shards : list A) (size : Z) (fuel : nat) :
  1 <= size ->
  forall (m : nat) (i : Z) (r : list (list A)),
    0 <= i -> Z.of_nat (length shards) - i = Z.of_nat m * size ->
    (m <= fuel)%nat ->
    exists gs,
      chunk_even fuel shards (Z.of_nat (length shards)) size i r = Some (r ++ gs)
      /\ concat gs = drop (Z.to_nat i) shards
      /\ length gs = m
      /\ Forall (fun a => a = size) (sizes gs).
Proof.
  intros Hsize. set (len := Z.of_nat (length shards)).
  induction fuel as [|fuel IH]; intros m i r Hi Hm Hfuel; simpl;
    destruct (Z.ltb_spec i len) as [Hlt|Hge]; try nia.
  1,3: assert (m = 0%nat) as -> by nia; exists []; rewrite app_nil_r;
    split; [done|]; split; [by rewrite drop_ge by lia|]; split; [done|constructor].
  destruct m as [|m]; [lia|].
  destruct (IH m (i + size) (r ++ [slice shards i (i + size)]))
    as (gs & Heq & Hcat & Hlen & Hsz); [lia|lia|lia|].
  assert (length (slice shards i (i + size)) = Z.to_nat size) as Hsl.
  { rewrite slice_take_drop by (fold len; lia).
    rewrite length_take, length_drop. nia. }
  exists (slice shards i (i + size) :: gs).
  split; [by rewrite Heq, <- app_assoc|].
  split.
  { simpl. rewrite Hcat, slice_take_drop by (fold len; lia).
    replace (Z.to_nat (i + size)) with (Z.to_nat i + Z.to_nat size)%nat by lia.
    by rewrite <- drop_drop, take_drop. }
  split; [simpl; lia|].
  simpl. constructor; [lia|done].
Qed.

Lemma chunk_fuel_spec {A} (ids : list A) (clusters : Z) (fuel : nat) :
  2 <= clusters -> (length ids <= fuel)%nat ->
  exists r,
    chunk_fuel fuel ids clusters = Some r
    /\ Z.of_nat (length r) = Z.min clusters (Z.of_nat (length ids))
    /\ concat r = ids
    /\ balanced (sizes r).
Proof.
  intros Hc Hfuel. unfold chunk_fuel.
  destruct (Z.ltb_spec clusters 2) as [?|_]; [lia|].
  set (len := Z.of_nat (length ids)).
  destruct (Z.eqb_spec (Z.rem len clusters) 0) as [Hrem|Hrem].
  - rewrite Z.rem_mod_nonneg in Hrem by lia.
    pose proof (Z.div_mod len clusters ltac:(lia)) as Hdm. rewrite Hrem in Hdm.
    destruct (decide (len = 0)) as [Hz|Hnz].
    + destruct fuel; simpl; (destruct (Z.ltb_spec 0 len); [lia|]);
        (exists []; split; [done|]; split; [simpl; lia|];
         split; [by destruct ids|by intros ? ? ? ? ?]).
    + assert (1 <= len / clusters) by nia.
      destruct (chunk_even_spec ids (len / clusters) fuel ltac:(done)
                  (Z.to_nat clusters) 0 []) as (gs & Heq & Hcat & Hlen & Hsz);
        [lia|fold len; nia|nia|].
      exists gs. split; [exact Heq|]. split; [nia|]. split; [done|].
      eapply (desc_from_balanced (len / clusters) (len / clusters)); [lia| |].
      * eapply Forall_impl; [exact Hsz|]. simpl. lia.
      * clear -Hsz. induction Hsz as [|a l -> _ IH]; simpl; [done|].
        split; [lia|done].
  - destruct (chunk_uneven_spec ids fuel clusters 0 [])
      as (gs & Heq & Hcat & Hlen & Hlo & Hdesc); [lia|lia|lia|lia|].
    exists gs. split; [exact Heq|]. split; [fold len in Hlen; lia|].
    split; [done|].
    eapply desc_from_balanced; [|exact Hlo|exact Hdesc].
    rewrite Z.sub_0_r. fold len.
    pose proof (ceil_div_bounds len clusters ltac:(lia)).
    pose proof (floor_div_bounds len clusters ltac:(lia)). nia.
Qed.

(** C2 (as stated, refuted): asked for five clusters, three shard IDs are
    split into three groups, not five. *)
Lemma chunk_group_count_counterexample :
  ~ (exists r : list (list Z),
       chunk [0; 1; 2] 5 = Some r /\ Z.of_nat (length r) = 5).
Proof. intros (r & Hr & Hlen). vm_compute in Hr. by simplify_eq. Qed.

(** C2 (amended): [chunk ids clusters] returns; for [clusters < 2] the
    result is the single group [ids]; otherwise it has
    [min clusters (length ids)] contiguous groups (so exactly [clusters]
    groups when there are at least that many IDs) whose concatenation is
    [ids], whose sizes differ by at most one and never increase; and
    [chunk [0..9] 3 = [[0,1,2,3],[4,5,6],[7,8,9]]]. *)
Theorem chunk_partition :
  (forall (A : Type) (ids : list A) (clusters : Z),
     exists r,
       chunk ids clusters = Some r
       /\ (if clusters <? 2 then r = [ids]
           else Z.of_nat (length r) = Z.min clusters (Z.of_nat (length ids)))
       /\ concat r = ids
       /\ balanced (sizes r))
  /\ chunk [0; 1; 2; 3; 4; 5; 6; 7; 8; 9] 3
     = Some [[0; 1; 2; 3]; [4; 5; 6]; [7; 8; 9]].
Proof.
  split; [|reflexivity].
  intros A ids clusters. destruct (Z.ltb_spec clusters 2) as [Hlt|Hge].
  - exists [ids]. unfold chunk, chunk_fuel.
    destruct (Z.ltb_spec clusters 2); [|lia].
    split; [done|]. split; [done|]. split; [simpl; by rewrite app_nil_r|].
    intros [|[|i]] [|[|j]] a b Hij Ha Hb; simpl in *; simplify_eq; lia.
  - destruct (chunk_fuel_spec ids clusters (length ids) Hge (le_n _))
      as (r & Hr & Hlen & Hcat & Hbal).
    exists r. done.
Qed.


Lemma group_get_app (m1 m2 : list (Z * Z)) (k : Z) :
  group_get (m1 ++ m2) k =
  match group_get m1 k with Some g => Some g | None => group_get m2 k end.
Proof.
  induction m1 as [|[k' g] m1 IH]; simpl; [done|].
  by destruct (k' =? k).
Qed.

(** The loop of [chunkConcurrencyGroups] keeps [currentGroup = i div
    maxConcurrency] and records exactly that for every cluster. *)
Lemma groups_loop_spec (maxConcurrency : Z) (n : nat) :
  0 < maxConcurrency ->
  let st := foldl (groups_step maxConcurrency) (0, []) (seq 0 n) in
  st.1 = (if decide (n = 0%nat) then 0 else (Z.of_nat n - 1) / maxConcurrency)
  /\ (forall i : nat, (i < n)%nat ->
        group_get st.2 (Z.of_nat i) = Some (Z.of_nat i / maxConcurrency))
  /\ (forall k : Z, Z.of_nat n <= k -> group_get st.2 k = None).
Proof.
  intros Hmc. cbv zeta. induction n as [|n (IHg & IHm & IHn)].
  { simpl. split; [done|]. split; [lia|done]. }
  rewrite seq_S, foldl_app. simpl.
  destruct (foldl (groups_step maxConcurrency) (0, []) (seq 0 n)) as [cg m].
  simpl in *.
  set (cg' := if Z.of_nat n - cg * maxConcurrency =? maxConcurrency
              then cg + 1 else cg).
  assert (cg' = Z.of_nat n / maxConcurrency) as Hcg'.
  { subst cg'. destruct (decide (n = 0%nat)) as [->|Hn].
    - subst cg. change (Z.of_nat 0) with 0. rewrite Z.div_0_l by lia.
      destruct (Z.eqb_spec (0 - 0 * maxConcurrency) maxConcurrency); [lia|done].
    - pose proof (floor_div_bounds (Z.of_nat n - 1) maxConcurrency Hmc).
      pose proof (floor_div_bounds (Z.of_nat n) maxConcurrency Hmc).
      rewrite <- IHg in *.
      destruct (Z.eqb_spec (Z.of_nat n - cg * maxConcurrency) maxConcurrency); nia. }
  split; [|split].
  - rewrite Hcg'. f_equal. lia.
  - intros i Hi. rewrite group_get_app.
    destruct (decide (i = n)) as [->|Hne].
    + rewrite IHn by lia. simpl. rewrite Z.eqb_refl. by rewrite Hcg'.
    + rewrite IHm by lia. done.
  - intros k Hk. rewrite group_get_app, IHn by lia. simpl.
    destruct (Z.eqb_spec (Z.of_nat n) k); [lia|done].
Qed.

Lemma chunkConcurrencyGroups_div (clusterCount : nat) (maxConcurrency : Z) (i : nat) :
  0 < maxConcurrency -> (i < clusterCount)%nat ->
  group_get (chunkConcurrencyGroups clusterCount maxConcurrency) (Z.of_nat i)
  = Some (groupOf_spec (Z.of_nat i) maxConcurrency).
Proof.
  intros Hmc Hi. unfold chunkConcurrencyGroups, groupOf_spec.
  by apply (groups_loop_spec maxConcurrency clusterCount Hmc).
Qed.

(** C9: the bitwise group-start test of the queue listener disagrees with
    the division-based grouping of [chunkConcurrencyGroups].  With three
    clusters and [maxConcurrency = 2], cluster 2 is mapped to group
    [2 div 2 = 1], is the first member of that group and satisfies
    [2 mod 2 = 0], yet [(2 & 2) === 0] is false; cluster 1 is not a group
    start, yet [(1 & 2) === 0] is true. *)
Theorem bitwise_group_start_disagrees :
  exists (clusterCount : nat) (maxConcurrency clusterID clusterID' : Z),
    0 < maxConcurrency
    /\ group_get (chunkConcurrencyGroups clusterCount maxConcurrency) clusterID
       = Some (groupOf_spec clusterID maxConcurrency)
    /\ group_first_member (chunkConcurrencyGroups clusterCount maxConcurrency) clusterID
       = true
    /\ group_start_spec clusterID maxConcurrency = true
    /\ group_start_bitwise clusterID maxConcurrency = false
    /\ group_first_member (chunkConcurrencyGroups clusterCount maxConcurrency) clusterID'
       = false
    /\ group_start_spec clusterID' maxConcurrency = false
    /\ group_start_bitwise clusterID' maxConcurrency = true.
Proof. exists 3%nat, 2, 2, 1. repeat split; reflexivity. Qed.

End sharding_facts.


(** ** The queue's override gate *)

Section queue_facts.
Import Queue.
Context {Item : Type}.
Implicit Types (q : Queue.t Item) (o : tag).

Lemma gated_differs q o :
  truthy (override q) = true -> o <> override q -> gated q o = true.
Proof.
  intros Hset Hne. unfold gated. rewrite Hset. simpl.
  by rewrite bool_decide_eq_false_2.
Qed.

Lemma gated_matches q : gated q (override q) = false.
Proof.
  unfold gated. rewrite bool_decide_eq_true_2 by done.
  by rewrite andb_false_r.
Qed.

Lemma gated_ungated q o : gated (ungated q) o = false.
Proof. done. Qed.

Lemma execute_matching q (first : bool) :
  execute first (override q) q
  = with_override (override q) (execute first None (ungated q)).
Proof.
  unfold execute. rewrite gated_matches, gated_ungated.
  destruct q as [l ov]; simpl.
  destruct first; [destruct l|destruct l as [|? []]]; done.
Qed.

(** C8: once the override tag is set (truthy, the test the gate itself
    makes), [execute], [item] and [bulkItems] called with any other tag,
    or with none, leave the queue as it is and emit no ["execute"]
    signal; called with the matching tag they do exactly what they do on
    a queue without override. *)
Theorem queue_override_gate q o (first : bool) (i : Item) (items : list Item) :
  truthy (override q) = true ->
  (o <> override q ->
     execute first o q = (q, [])
     /\ item i o q = (q, [])
     /\ bulkItems items o q = (q, []))
  /\ (o = override q ->
     execute first o q = with_override o (execute first None (ungated q))
     /\ item i o q = with_override o (item i None (ungated q))
     /\ bulkItems items o q = with_override o (bulkItems items None (ungated q))).
Proof.
  intros Hset. split.
  - intros Hne. unfold execute, item, bulkItems.
    by rewrite (gated_differs q o Hset Hne).
  - intros ->. split; [apply execute_matching|].
    unfold item, bulkItems. rewrite gated_matches, !gated_ungated.
    destruct q as [l ov]; simpl. split.
    + destruct (length (l ++ [i]) =? 1)%nat; [|done].
      apply (execute_matching (mk (l ++ [i]) ov) true).
    + destruct (length l =? 0)%nat; [|done].
      apply (execute_matching (mk (l ++ items) ov) true).
Qed.

End queue_facts.

Lemma queue_override_gate_witness :
  Queue.truthy (Some "shutdownWorker"%string) = true
  /\ Queue.execute false None (Queue.mk [1; 2] (Some "shutdownWorker"%string))
     = (Queue.mk [1; 2] (Some "shutdownWorker"%string), [])
  /\ Queue.item 3 (Some "shutdownWorker"%string)
       (Queue.mk [] (Some "shutdownWorker"%string))
     = (Queue.mk [3] (Some "shutdownWorker"%string), [(3, None)]).
Proof.
  pose proof (queue_override_gate (Queue.mk [1; 2] (Some "shutdownWorker"%string))
                None false 3 [] eq_refl) as [Hdrop _].
  pose proof (queue_override_gate (Queue.mk [] (Some "shutdownWorker"%string))
                (Some "shutdownWorker"%string) false 3 [] eq_refl) as [_ Hpass].
  split; [reflexivity|]. split.
  - exact (proj1 (Hdrop ltac:(discriminate))).
  - exact (proj1 (proj2 (Hpass eq_refl))).
Defined.

(** ** Serialization round trip and the proxied-call failure path *)

Section serialization_facts.
Import Serialization.

(** Induction on values through their arrays and property lists. *)
Lemma value_ind_nested (P : value -> Prop) :
  P VUndefined -> P VNull -> (forall b, P (VBool b)) -> (forall n, P (VNum n)) ->
  (forall z, P (VBigInt z)) -> (forall s, P (VStr s)) ->
  (forall elems,
     Forall (fun o => match o with Some x => P x | None => True end) elems ->
     P (VArr elems)) ->
  (forall props, Forall (fun kv => P kv.2) props -> P (VObj props)) ->
  (forall name message stack props,
     P name -> P message -> P stack -> Forall (fun kv => P kv.2) props ->
     P (VErr name message stack props)) ->
  forall v, P v.
Proof.
  intros Hu Hn Hb Hz Hbi Hs Ha Ho He.
  fix IH 1. intros [| | | | | |elems|props|name message stack props];
    [done|done|apply Hb|apply Hz|apply Hbi|apply Hs| | |].
  - apply Ha. induction elems as [|[x|] elems IHl]; constructor; auto.
  - apply Ho. induction props as [|[k x] props IHl]; constructor; auto; apply IH.
  - apply He; try apply IH.
    induction props as [|[k x] props IHl]; constructor; auto; apply IH.
Qed.

Lemma stringify_replacer (v : value) :
  stringify_value (replacer v) = stringify_value v.
Proof. by destruct v. Qed.

Lemma bigint_to_string_nonempty (z : Z) : bigint_to_string z <> ""%string.
Proof.
  unfold bigint_to_string, NilZero.string_of_int.
  destruct (Z.to_int z) as [d|d]; [|done].
  unfold NilZero.string_of_uint. by destruct d.
Qed.

Lemma BigInt_of_bigint_to_string (z : Z) : BigInt (bigint_to_string z) = Some z.
Proof.
  unfold BigInt.
  destruct (String.eqb_spec (bigint_to_string z) "") as [He|_].
  { by apply bigint_to_string_nonempty in He. }
  unfold bigint_to_string. rewrite NilZero.isi.
  - simpl. by rewrite of_to.
  - destruct z; simpl; try done.
    intros [=H]. by apply Unsigned.to_uint_nonnil in H.
  - destruct z; simpl; try done.
    intros [=H]. by apply Unsigned.to_uint_nonnil in H.
Qed.

Lemma reviver_bigint (z : Z) :
  reviver_string (BIGINT_tag +:+ bigint_to_string z) = Some (VBigInt z).
Proof.
  change (reviver_string (BIGINT_tag +:+ bigint_to_string z))
    with (VBigInt <$> BigInt (bigint_to_string z)).
  by rewrite BigInt_of_bigint_to_string.
Qed.

Lemma reviver_untagged (s : string) :
  untagged s = true -> reviver_string s = Some (VStr s).
Proof.
  unfold untagged, reviver_string. intros [H1 H2]%andb_true_iff.
  apply negb_true_iff in H1, H2. by rewrite H1, H2.
Qed.

Lemma is_undefined_revived (v : value) : is_undefined (revived v) = is_undefined v.
Proof. by destruct v. Qed.

(** The round trip on payloads whose strings carry neither tag. *)
Lemma parse_stringify (v : value) :
  payload v -> tag_free v -> parse_value (stringify_value v) = Some (revived v).
Proof.
  induction v as [| | | | | |elems IH|props IH|name message stack props _ _ _ _]
    using value_ind_nested; intros Hp Ht; try done.
  - apply reviver_bigint.
  - by apply reviver_untagged.
  - simpl.
    assert (mapM parse_value
              (map (fun o => match o with
                             | Some x => stringify_value x
                             | None => JStr UNDEFINED_tag
                             end) elems)
            = Some (map (fun o => match o with
                                  | Some x => revived x
                                  | None => VUndefined
                                  end) elems)) as ->.
    { simpl in Hp, Ht.
      induction elems as [|[x|] elems IHl]; simpl; [done| |].
      - apply Forall_cons in IH as [Hx IH]. destruct Hp as [Hpx Hp], Ht as [Htx Ht].
        rewrite (Hx Hpx Htx). simpl. by rewrite (IHl IH Hp Ht).
      - apply Forall_cons in IH as [_ IH]. change (parse_value (JStr UNDEFINED_tag)) with (Some VUndefined).
        simpl. by rewrite (IHl IH Hp Ht). }
    simpl. do 2 f_equal. rewrite map_map. apply map_ext.
    intros [x|]; [|done]. rewrite is_undefined_revived. by destruct (is_undefined x).
  - simpl.
    assert (mapM (fun kv => pair kv.1 <$> parse_value kv.2)
              (map (fun kv => (kv.1, stringify_value kv.2)) props)
            = Some (map (fun kv => (kv.1, revived kv.2)) props)) as ->.
    { destruct Hp as [_ Hp]. simpl in Ht.
      induction props as [|[k x] props IHl]; simpl; [done|].
      apply Forall_cons in IH as [Hx IH]. destruct Hp as [Hpx Hp], Ht as [Htx Ht].
      simpl in *. rewrite (Hx Hpx Htx). simpl. by rewrite (IHl IH Hp Ht). }
    simpl. do 2 f_equal. clear.
    induction props as [|[k x] props IHl]; simpl; [done|].
    rewrite is_undefined_revived. destruct (is_undefined x); simpl; by rewrite IHl.
Qed.

Lemma assoc_revived_None (k : string) (props : list (string * value)) :
  assoc k props = None ->
  assoc k ((fix go (l : list (string * value)) : list (string * value) :=
              match l with
              | [] => []
              | kv :: l' =>
                  if is_undefined kv.2 then go l'
                  else (kv.1, revived kv.2) :: go l'
              end) props) = None.
Proof.
  induction props as [|[k' x] props IH]; simpl; [done|].
  destruct (String.eqb_spec k' k); [done|]. intros H.
  destruct (is_undefined x); simpl; [by apply IH|].
  destruct (String.eqb_spec k' k); [done|by apply IH].
Qed.

Lemma assoc_None_not_in (k : string) (props : list (string * value)) :
  k ∉ props.*1 -> assoc k props = None.
Proof.
  induction props as [|[k' x] props IH]; simpl; [done|].
  intros Hn. apply not_elem_of_cons in Hn as [Hne Hn].
  destruct (String.eqb_spec k' k); [congruence|by apply IH].
Qed.

(** Reading a property or an element after the round trip gives the
    round trip of what was there before: a property that held
    [undefined] is gone and reads as [undefined]. *)
Lemma get_prop_revived (v : value) (k : string) :
  payload v -> get_prop (revived v) k = revived (get_prop v k).
Proof.
  destruct v as [| | | | | |elems|props|]; try done. intros [Hnd _]. simpl.
  induction props as [|[k' x] props IH]; simpl; [done|].
  apply NoDup_cons in Hnd as [Hk' Hnd]. simpl in *.
  destruct (String.eqb_spec k' k) as [->|Hne].
  - destruct (is_undefined x) eqn:Hx; simpl.
    + rewrite assoc_revived_None by by apply assoc_None_not_in.
      by destruct x.
    + by rewrite String.eqb_refl.
  - destruct (is_undefined x); simpl; [by apply IH|].
    destruct (String.eqb_spec k' k); [done|by apply IH].
Qed.

Lemma get_index_revived (v : value) (i : nat) :
  get_index (revived v) i = revived (get_index v i).
Proof.
  destruct v as [| | | | | |elems| |]; try done. simpl.
  rewrite list_lookup_fmap. destruct (elems !! i) as [[x|]|]; simpl; try done.
  destruct (is_undefined x) eqn:Hx; simpl; [by destruct x|done].
Qed.

(** C10 (as stated, refuted): a plain JSON string that happens to begin
    with the bigint tag does not come back as the string it was. *)
Lemma roundtrip_tagged_string_counterexample :
  payload (VStr "BIGINT::5")
  /\ parseJSON (stringifyJSON (VStr "BIGINT::5")) = Some (VBigInt 5)
  /\ parseJSON (stringifyJSON (VStr "BIGINT::5")) <> Some (VStr "BIGINT::5").
Proof. split; [done|]. split; [reflexivity|discriminate]. Qed.

(** C10 (amended): for a payload of JSON data, bigints and [undefined]
    in which no string begins with [BIGINT::] or [UNDEFINED::],
    [parseJSON (stringifyJSON payload)] returns the payload with every
    bigint a bigint again and every other value unchanged, except that an
    [undefined] array element comes back as an empty slot and an
    [undefined] object property as a missing property: both still read
    as [undefined]; a payload that is itself [undefined] comes back as
    [undefined]. *)
Theorem roundtrip_tag_free (v : value) :
  payload v -> tag_free v ->
  parseJSON (stringifyJSON v) = Some (revived v)
  /\ (forall k, get_prop (revived v) k = revived (get_prop v k))
  /\ (forall i, get_index (revived v) i = revived (get_index v i))
  /\ match v with
     | VArr elems => exists elems', revived v = VArr elems' /\ length elems' = length elems
     | VObj _ => True
     | _ => revived v = v
     end.
Proof.
  intros Hp Ht. split; [by apply parse_stringify|].
  split; [intros k; by apply get_prop_revived|].
  split; [intros i; apply get_index_revived|].
  destruct v; try done. simpl. eexists. split; [done|]. by rewrite length_map.
Qed.

End serialization_facts.

Lemma roundtrip_tag_free_witness :
  Serialization.parseJSON
    (Serialization.stringifyJSON
       (Serialization.VObj
          [("id", Serialization.VBigInt 9007199254740993);
           ("file", Serialization.VUndefined);
           ("tags", Serialization.VArr
                      [Some (Serialization.VStr "a"); Some Serialization.VUndefined;
                       Some Serialization.VNull])]%string))
  = Some (Serialization.VObj
            [("id", Serialization.VBigInt 9007199254740993);
             ("tags", Serialization.VArr
                        [Some (Serialization.VStr "a"); None;
                         Some Serialization.VNull])]%string).
Proof.
  refine (proj1 (roundtrip_tag_free _ _ _)).
  - split; [|done]. by apply (bool_decide_unpack _).
  - done.
Defined.

(** ** Concurrency groups during launch *)

Section launch_facts.
Import Admiral Scenarios.
Local Open Scope Z_scope.

(** C1 (the code departs from the claim): with three clusters and
    [maxConcurrency = 2], cluster 2 belongs to group 1 and cluster 1 to
    group 0.  After cluster 0 alone has reported [connected], the timer
    set by that handler releases the next queue item: the [connect]
    message of cluster 2 is sent although cluster 1 has not been
    processed as connected (no [clusterReady] for it, no registry
    record).  The handler compares the group's count with
    [Object.entries(clusterToGroupMap)], which is empty for a [Map]. *)
Theorem next_group_released_before_group_connected :
  let s := run three_clusters (launch three_clusters 3 (init three_clusters))
             early_release in
  Sharding.group_get (clusterToGroupMap three_clusters s) 1 = Some 0
  /\ Sharding.group_get (clusterToGroupMap three_clusters s) 2 = Some 1
  /\ trace s =
       [Forked 1%nat KCluster; Forked 2%nat KCluster; Forked 3%nat KCluster;
        Sent 1%nat (ConnectCluster 0 3 (Num 0) (Num 0) false);
        StartingGroup 0;
        Sent 2%nat (ConnectCluster 1 3 (Num 1) (Num 1) false);
        StartingGroup 0;
        Emitted (ClusterReady 0);
        Sent 1%nat LoadCode;
        StartingGroup 1;
        Sent 3%nat (ConnectCluster 2 3 (Num 2) (Num 2) false)]
  /\ JsMap.get 1 (clusters s) = None
  /\ JsMap.get 2%nat (launchingWorkers s)
     = Some (LCluster {| c_workerID := 2%nat; c_clusterID := 1;
                         c_firstShardID := Num 1; c_lastShardID := Num 1 |}).
Proof. vm_compute. repeat split; reflexivity. Qed.

End launch_facts.

(** ** Soft kill *)

Section softkill_facts.
Import Admiral Scenarios.
Local Open Scope Z_scope.

(** C3 (the code departs from the claim): a service under soft kill
    that does not acknowledge before the kill timer fires has [kill()]
    called on it twice, once by the timer and once more by its
    continuation, which ignores the [failed] argument and announces
    [serviceShutdown] as for a cooperative stop. *)
Theorem softkill_service_timeout_kills_twice :
  let s := run (service_and_cluster 5) (ready_state 5)
             [CallShutdownService "svc" false; TimerFires 0%nat] in
  drop (length (trace (ready_state 5))) (trace s) =
    [Sent 1%nat ShutdownMsg;
     Killed 1%nat; Warned (SafeShutdownFailed 1%nat);
     Killed 1%nat; Emitted (ServiceShutdown "svc")]
  /\ softKills s !! 1%nat = None.
Proof. vm_compute. split; reflexivity. Qed.

(** The cluster continuation does what the claim says: on the timer
    path [kill()] is called once and nothing is announced. *)
Lemma softkill_cluster_timeout_kills_once :
  let s := run (service_and_cluster 5) (ready_state 5)
             [CallShutdownCluster 0 false; TimerFires 0%nat] in
  drop (length (trace (ready_state 5))) (trace s) =
    [Sent 2%nat ShutdownMsg; Killed 2%nat; Warned (SafeShutdownFailed 2%nat)]
  /\ softKills s !! 2%nat = None
  /\ JsMap.get 0 (clusters s) = None.
Proof. vm_compute. repeat split; reflexivity. Qed.

(** An acknowledgment processed before the timer: the continuation
    stops the worker, the queue moves on, and the timer finds another
    head and does nothing. *)
Lemma softkill_acknowledged_before_timer :
  let s := run (service_and_cluster 5) (ready_state 5)
             [CallShutdownCluster 0 false; MsgShutdown 2%nat] in
  drop (length (trace (ready_state 5))) (trace s) =
    [Sent 2%nat ShutdownMsg; Emitted (ClusterShutdown 0); Killed 2%nat]
  /\ timers s = [KillTimer {| qi_type := TCluster; qi_workerID := 2%nat;
                              qi_message := ShutdownMsg |}]
  /\ trace (step (service_and_cluster 5) s (TimerFires 0%nat)) = trace s.
Proof. vm_compute. repeat split; reflexivity. Qed.

End softkill_facts.

(** ** The central request proxy *)

Section proxy_facts.
Import Serialization Scenarios.

(** Nothing that [parseJSON] returns is an [Error] instance. *)
Lemma parse_value_not_Error (j : json) (v : value) :
  parse_value j = Some v -> instanceof_Error v = false.
Proof.
  destruct j as [| | |s|elems|members]; simpl; try by intros [= <-].
  - unfold reviver_string.
    destruct (starts_with BIGINT_tag s);
      [destruct (BigInt _); simpl; by intros [= <-]|].
    destruct (starts_with UNDEFINED_tag s); by intros [= <-].
  - destruct (mapM parse_value elems); simpl; by intros [= <-].
  - destruct (mapM _ members); simpl; by intros [= <-].
Qed.

(** [reconstructError] returns such a value as it is: the guard
    [!(data instanceof Error)] holds for everything that went through
    JSON. *)
Lemma reconstructError_parsed (new_stack : string) (j : json) (v : value) :
  parse_value j = Some v -> reconstructError new_stack v = v.
Proof. intros H%parse_value_not_Error. by destruct v. Qed.

(** A successful call resolves the worker's promise with the value that
    went through the round trip. *)
Lemma proxied_success (new_stack : string) (v : value) :
  payload v -> tag_free v ->
  proxied_call new_stack (Fulfilled v) = Some (Resolve (revived v)).
Proof.
  intros Hp Ht. unfold proxied_call, on_centralApiResponse. simpl.
  unfold parseJSON, stringifyJSON. by rewrite parse_stringify.
Qed.

(** C6 (the code departs from the claim): when the proxied call fails
    with an [Error], the orchestrator serializes its fields and flags
    the reply with [convertedErrorObject], but the worker's promise is
    rejected with the plain object that [parseJSON] produced, not with
    an [Error]: [reconstructError] returns its argument unchanged
    because that object is not an [Error] instance.  The message, stack
    and code are there; the fields that were [undefined] are gone. *)
Theorem proxied_error_rejects_with_plain_object (new_stack : string) :
  proxied_call new_stack (Rejected boom)
  = Some (Reject (VObj [("code", VNum 500);
                        ("message", VStr "boom");
                        ("name", VStr "Error");
                        ("stack", VStr "Error: boom at request")]%string))
  /\ instanceof_Error boom = true
  /\ instanceof_Error (VObj [("code", VNum 500);
                            ("message", VStr "boom");
                            ("name", VStr "Error");
                            ("stack", VStr "Error: boom at request")]%string) = false.
Proof. repeat split. Qed.

(** Had the data been an [Error] instance, [reconstructError] would
    build a fresh [Error] carrying its enumerable properties. *)
Example reconstructError_on_Error :
  reconstructError "fresh stack" boom
  = VErr (VStr "Error") (VStr "") (VStr "fresh stack") [("code", VNum 500)]%string.
Proof. reflexivity. Qed.

End proxy_facts.

(** ** Maps in insertion order *)

Section jsmap_facts.
Context {K V : Type} `{EqDecision K}.
Implicit Types (m : JsMap.t K V) (k : K) (v : V).


Lemma jsmap_get_set_ne m k k' v :
  k <> k' -> JsMap.get k' (JsMap.set k v m) = JsMap.get k' m.
Proof.
  intros Hne. induction m as [|[k0 v0] m IH]; simpl.
  - by rewrite decide_False.
  - destruct (decide (k0 = k)) as [->|Hne0]; simpl.
    + by rewrite !decide_False.
    + destruct (decide (k0 = k')); [done|apply IH].
Qed.



Lemma jsmap_delete_absent m k : JsMap.get k m = None -> JsMap.delete k m = m.
Proof.
  induction m as [|[k' v'] m IH]; simpl; [done|].
  destruct (decide (k' = k)); [done|]. intros Hm. by rewrite IH.
Qed.



Lemma jsmap_get_values m k v : JsMap.get k m = Some v -> v ∈ JsMap.values m.
Proof.
  unfold JsMap.values. induction m as [|[k' v'] m IH]; simpl; [done|].
  destruct (decide (k' = k)).
  - intros [= ->]. by left.
  - intros Hm. right. by apply IH.
Qed.







End jsmap_facts.

(** ** Targeted fetch *)

Section fetch_facts.
Import Admiral Scenarios.
Implicit Types (s : state) (r : requester) (id : string).

Lemma upd_fetches_same s : upd_fetches (fetches s) s = s.
Proof. by destruct s. Qed.





End fetch_facts.


(** ** What the queue machinery leaves alone *)

Section frame_facts.
Import Admiral.
Context (cfg : config).
Implicit Types (s : state) (item : QueueItem).










(** The fuel handed to [execute_again] is always enough. *)
Lemma execute_again_fuel (fuel : nat) : forall s,
  (length (Queue.queue (queue s)) < fuel)%nat ->
  is_Some (execute_again cfg fuel s).
Proof.
  induction fuel as [|fuel IH]; intros s Hlen; [lia|]. simpl.
  unfold Queue.execute.
  destruct (Queue.gated (queue s) None); simpl; [eauto|].
  destruct (Queue.queue (queue s)) as [|head rest] eqn:Hq; simpl; [eauto|].
  destruct rest as [|item rest]; simpl; [eauto|].
  destruct (on_execute cfg item _) as [s1 again] eqn:H1. simpl.
  destruct again; [|eauto]. apply IH.
  assert (queue s1 = Queue.mk (item :: rest) (Queue.override (queue s))) as ->.
  { change s1 with (s1, true).1. rewrite <- H1. clear.
    unfold on_execute. simpl. destruct (master_worker _ _); [|done].
    destruct (msg_op _); try done.
    destruct (launchingManager s !! _); [|done].
    unfold concurrency. simpl. repeat (case_match; simpl; try done). }
  simpl in *. lia.
Qed.

End frame_facts.

(** ** Sequential failed restarts *)

Section restart_facts.
Import Admiral Scenarios.
Local Open Scope Z_scope.
Context (cfg : config).
Implicit Types (s : state) (w : workerID).





End restart_facts.


(** ** Worker IDs are recorded under the type they were forked with *)

Section registry_facts.
Import Admiral.
Context (cfg : config).
Implicit Types (s : state) (w : workerID) (cb : callback) (fn : softKillFn).

Lemma core_registry s s' : core s' = core s -> registry s' = registry s.
Proof. unfold core, registry. intros [=]. congruence. Qed.



Lemma kinds_le_workers s s' : workers s' = workers s -> kinds_le s s'.
Proof. intros Hw w k. unfold kind_of. by rewrite Hw. Qed.

Lemma kinds_le_registry s s' : registry s' = registry s -> kinds_le s s'.
Proof. unfold registry. intros [=]. by apply kinds_le_workers. Qed.

Lemma cb_ok_le s s' cb : kinds_le s s' -> cb_ok s cb -> cb_ok s' cb.
Proof. intros Hle. destruct cb; simpl; auto. Qed.

Lemma fn_ok_le s s' fn : kinds_le s s' -> fn_ok s fn -> fn_ok s' fn.
Proof. intros Hle. destruct fn; simpl; eauto using cb_ok_le. Qed.

Lemma kc_registry s s' :
  registry s' = registry s -> kinds_consistent s -> kinds_consistent s'.
Proof.
  intros Hr (Hc & Hs & Hl & Hk & Hf).
  pose proof (kinds_le_registry _ _ Hr) as Hle.
  unfold registry in Hr. injection Hr as Hrc Hrs Hrl Hrk Hrw Hrn.
  split; [|split; [|split; [|split]]].
  - intros c Hin. rewrite Hrc in Hin. by apply Hle, Hc.
  - intros sv Hin. rewrite Hrs in Hin. by apply Hle, Hs.
  - intros w e Hin. rewrite Hrl in Hin. destruct (Hl w e Hin). split; [by apply Hle|done].
  - intros w fn Hfn. rewrite Hrk in Hfn. eapply fn_ok_le; eauto.
  - intros w Hw. rewrite Hrw in Hw. rewrite Hrn. by apply Hf.
Qed.

Lemma kc_core s s' : core s' = core s -> kinds_consistent s -> kinds_consistent s'.
Proof. intros H. by apply kc_registry, core_registry. Qed.












(** [good s0 s]: [s] satisfies the invariant and remembers the worker
    types of [s0]. *)
















End registry_facts.

Import Admiral.




Section handler_invariant.
Import Admiral.
Context (cfg : config).
Implicit Types (s : state) (w : workerID) (cb : callback) (fn : softKillFn).






























(** *** Promotion removes the launching entry *)








End handler_invariant.

Section registry_disjoint.
Import Scenarios.



End registry_disjoint.

